(** * A verification model of the cargo runner (package [runner], runners.go)

    The runner drives [cargo install] for a buildpack: it decodes the
    workspace-member identifiers of [cargo metadata], filters them against
    an allow-list, synthesises the argument list of the install command,
    refreshes the search path and prunes the cargo home directory.

    Go strings are byte strings and are modelled by [string]; the functions
    of Go's [strings], [os] and [path/filepath] packages that the runner
    calls are embedded first, then the runner itself, then the properties. *)

From Stdlib Require Import ZArith Ascii String List Bool Lia.
From stdpp Require Import base option list strings gmap.

Local Open Scope Z_scope.

(** ** Outcomes of Go code that may panic *)

(** A Go call either returns its results or panics (an index or a slice
    bound out of range).  An [error] result is an ordinary return value and
    is kept inside [A]. *)
Inductive outcome (A : Type) : Type :=
  | Return (a : A)
  | Panic.
Arguments Return {A} a.
Arguments Panic {A}.

Definition obind {A B} (m : outcome A) (k : A -> outcome B) : outcome B :=
  match m with
  | Return a => k a
  | Panic => Panic
  end.

Notation "'do' x <- m ; k" := (obind m (fun x => k))
  (at level 10, x name, m at level 100, k at level 200).

(** Go's [error] values are represented by their message. *)
Definition error := string.

(** ** The [strings] package *)
Module GoStrings.

(** [strings.HasPrefix(s, prefix)]. *)
Definition HasPrefix (s prefix : string) : bool := String.prefix prefix s.

(** [s[lo:]] and [s[:hi]]: slicing panics when the bound is outside
    [0 .. len(s)]. *)
Definition sliceFrom (s : string) (lo : Z) : outcome string :=
  if (0 <=? lo) && (lo <=? Z.of_nat (String.length s))
  then Return (substring (Z.to_nat lo) (String.length s - Z.to_nat lo) s)
  else Panic.

Definition sliceTo (s : string) (hi : Z) : outcome string :=
  if (0 <=? hi) && (hi <=? Z.of_nat (String.length s))
  then Return (substring 0 (Z.to_nat hi) s)
  else Panic.

(** [a[i]] on a slice: panics when [i] is out of range. *)
Definition index {A} (a : list A) (i : nat) : outcome A :=
  match a !! i with
  | Some x => Return x
  | None => Panic
  end.

(** [strings.HasSuffix(s, suffix)]:
    [len(s) >= len(suffix) && s[len(s)-len(suffix):] == suffix]. *)
Definition HasSuffix (s suffix : string) : bool :=
  (String.length suffix <=? String.length s)%nat &&
  String.eqb
    (substring (String.length s - String.length suffix) (String.length suffix) s)
    suffix.

(** [strings.TrimPrefix(s, prefix)]. *)
Definition TrimPrefix (s prefix : string) : string :=
  if HasPrefix s prefix
  then substring (String.length prefix) (String.length s - String.length prefix) s
  else s.

(** [strings.TrimSuffix(s, suffix)]. *)
Definition TrimSuffix (s suffix : string) : string :=
  if HasSuffix s suffix
  then substring 0 (String.length s - String.length suffix) s
  else s.

(** [strings.Contains(s, substr)]: [substr] occurs at some offset of [s]. *)
Fixpoint Contains (s substr : string) : bool :=
  String.prefix substr s ||
  match s with
  | EmptyString => false
  | String _ r => Contains r substr
  end.

(** The separators of this program are one-byte literals (["#"], ["@"],
    [" "], [","], ["/"], [":"]), so the functions below take the separator
    as a byte. *)

(** [strings.IndexByte(s, c) >= 0]. *)
Fixpoint hasByte (c : ascii) (s : string) : bool :=
  match s with
  | EmptyString => false
  | String a r => Ascii.eqb a c || hasByte c r
  end.

(** [strings.Count(s, sep)]. *)
Fixpoint Count (s : string) (sep : ascii) : nat :=
  match s with
  | EmptyString => 0
  | String c r => ((if Ascii.eqb c sep then 1 else 0) + Count r sep)%nat
  end.

(** The step of [genSplit]'s loop: [m := Index(s, sep)], then the pair
    [(s[:m], s[m+len(sep):])], or [None] when [sep] does not occur. *)
Fixpoint cut (s : string) (sep : ascii) : option (string * string) :=
  match s with
  | EmptyString => None
  | String c r =>
      if Ascii.eqb c sep then Some (EmptyString, r)
      else match cut r sep with
           | Some (a, b) => Some (String c a, b)
           | None => None
           end
  end.

(** [strings.SplitN(s, sep, n)] for [n >= 0]: at most [n] pieces, the last
    one being the unsplit remainder; [n = 0] gives the empty slice. *)
Fixpoint SplitN (s : string) (sep : ascii) (n : nat) : list string :=
  match n with
  | O => []
  | S O => [s]
  | S (S _ as n') =>
      match cut s sep with
      | None => [s]
      | Some (a, b) => a :: SplitN b sep n'
      end
  end.

(** [strings.Split(s, sep)] is [genSplit(s, sep, 0, -1)], which takes
    [n = Count(s, sep) + 1]. *)
Definition Split (s : string) (sep : ascii) : list string :=
  SplitN s sep (Count s sep + 1).

(** [strings.LastIndex(s, sep)]: the offset of the last [sep], or [-1]. *)
Fixpoint LastIndex (s : string) (sep : ascii) : Z :=
  match s with
  | EmptyString => -1
  | String c r =>
      let i := LastIndex r sep in
      if 0 <=? i then i + 1 else if Ascii.eqb c sep then 0 else -1
  end.

(** [strings.Join(elems, sep)]. *)
Definition Join (elems : list string) (sep : string) : string :=
  String.concat sep elems.

(** *** [strings.TrimSpace]

    [TrimSpace] removes the leading and the trailing white-space runes, as
    [unicode.IsSpace] defines them.  On the bytes of a string these are the
    UTF-8 encodings below; a byte that starts no valid encoding decodes to
    [utf8.RuneError], which is not white space. *)
Definition bytes (l : list N) : list ascii := map ascii_of_N l.

Definition whiteSpace : list (list ascii) :=
  map bytes
    [ [9]; [10]; [11]; [12]; [13]; [32]              (* \t \n \v \f \r ' ' *)
    ; [194; 133]; [194; 160]                          (* U+0085, U+00A0 *)
    ; [225; 154; 128]                                 (* U+1680 *)
    ; [226; 128; 128]; [226; 128; 129]; [226; 128; 130]; [226; 128; 131]
    ; [226; 128; 132]; [226; 128; 133]; [226; 128; 134]; [226; 128; 135]
    ; [226; 128; 136]; [226; 128; 137]; [226; 128; 138] (* U+2000..U+200A *)
    ; [226; 128; 168]; [226; 128; 169]                (* U+2028, U+2029 *)
    ; [226; 128; 175]; [226; 129; 159]                (* U+202F, U+205F *)
    ; [227; 128; 128] ]%N.                            (* U+3000 *)

(** [stripOne ws l]: [l] without its first rune, when that rune is one of
    the encodings [ws]. *)
Fixpoint stripPrefix (w l : list ascii) : option (list ascii) :=
  match w, l with
  | [], _ => Some l
  | a :: w', b :: l' => if Ascii.eqb a b then stripPrefix w' l' else None
  | _ :: _, [] => None
  end.

Fixpoint stripOne (ws : list (list ascii)) (l : list ascii)
  : option (list ascii) :=
  match ws with
  | [] => None
  | w :: ws' =>
      match stripPrefix w l with
      | Some r => Some r
      | None => stripOne ws' l
      end
  end.

(** The loop of [TrimLeftFunc]: drop runes of [ws] while there is one. *)
Fixpoint trimLeftN (ws : list (list ascii)) (n : nat) (l : list ascii)
  : list ascii :=
  match n with
  | O => l
  | S n' =>
      match stripOne ws l with
      | Some r => trimLeftN ws n' r
      | None => l
      end
  end.

Definition trimLeft (ws : list (list ascii)) (l : list ascii) : list ascii :=
  trimLeftN ws (length l) l.

(** [TrimRightFunc] scans the runes from the end: the same loop on the
    reversed bytes with the reversed encodings. *)
Definition trimRight (ws : list (list ascii)) (l : list ascii) : list ascii :=
  rev (trimLeft (map (@rev ascii) ws) (rev l)).

(** The bytes that [TrimSpace] keeps: the leading runes go first, then the
    trailing ones. *)
Definition trimmed (l : list ascii) : list ascii :=
  trimRight whiteSpace (trimLeft whiteSpace l).

Definition TrimSpace (s : string) : string :=
  string_of_list_ascii (trimmed (list_ascii_of_string s)).

End GoStrings.
Import GoStrings.


(** A line feed, for the messages that [fmt.Errorf] builds. *)
Definition nl : string := String (ascii_of_N 10) EmptyString.

(** ** The [os] package: the process environment *)
Module GoOS.

(** The environment maps names to values. *)
Abbreviation environ := (gmap string string).

Definition NUL : ascii := ascii_of_N 0.

(** [os.Getenv]: the value, or the empty string when the name is unset. *)
Definition Getenv (key : string) (env : environ) : string :=
  default EmptyString (env !! key).

(** [os.LookupEnv]: the value and whether the name is set. *)
Definition LookupEnv (key : string) (env : environ) : option string :=
  env !! key.

(** [os.Setenv]: fails with [EINVAL] for an empty key, a key with ['='] or
    a NUL byte, or a value with a NUL byte. *)
Definition Setenv (key value : string) (env : environ) : environ + error :=
  if String.eqb key EmptyString || hasByte "="%char key || hasByte NUL key
     || hasByte NUL value
  then inr "setenv: invalid argument"
  else inl (<[key := value]> env).

End GoOS.
Import GoOS.

(** ** The [path/filepath] package (Unix) *)
Module GoFilepath.

(** One element of the path that [Clean] reads, against the elements
    written so far (last one first): empty and ["."] elements are dropped,
    [".."] removes the last real element, is dropped at the root and is kept
    in a relative path that has nothing left to remove. *)
Definition cleanStep (rooted : bool) (out : list string) (e : string)
  : list string :=
  if String.eqb e "" || String.eqb e "." then out
  else if String.eqb e ".." then
    match out with
    | top :: out' =>
        if String.eqb top ".." then e :: out else out'
    | [] => if rooted then out else [e]
    end
  else e :: out.

(** [filepath.Clean]. *)
Definition Clean (path : string) : string :=
  if String.eqb path "" then "."
  else
    let rooted := HasPrefix path "/" in
    let out := rev (fold_left (cleanStep rooted) (Split path "/") []) in
    if rooted then "/" +:+ Join out "/"
    else match out with
         | [] => "."
         | _ => Join out "/"
         end.

(** [filepath.Join]: the elements from the first non-empty one on, joined
    with the separator and cleaned; the empty string when all are empty. *)
Fixpoint Join (elem : list string) : string :=
  match elem with
  | [] => ""
  | e :: rest =>
      if String.eqb e "" then Join rest else Clean (GoStrings.Join elem "/")
  end.

(** [filepath.SplitList]: the entries of a search path. *)
Definition SplitList (path : string) : list string :=
  if String.eqb path "" then [] else Split path ":".

End GoFilepath.

(** ** The cargo home directory *)

(** The directory tree found at [CargoHome]: a directory lists its entries
    by name, in the order [os.ReadDir] reports them; anything that is not a
    directory (regular file, symbolic link) is a [file]. *)
#[warnings="-register-all"]
Inductive node : Type :=
  | file
  | dir (children : list (string * node)).

Definition IsDir (n : node) : bool :=
  match n with
  | dir _ => true
  | file => false
  end.

Definition lookupChild (name : string) (cs : list (string * node))
  : option node :=
  match List.find (fun e => String.eqb (fst e) name) cs with
  | Some e => Some (snd e)
  | None => None
  end.

(** [os.RemoveAll] of the entry [name] of a directory. *)
Definition removeChild (name : string) (cs : list (string * node))
  : list (string * node) :=
  List.filter (fun e => negb (String.eqb (fst e) name)) cs.

(** The directory with the content of its entry [name] replaced. *)
Fixpoint replaceChild (name : string) (n : node) (cs : list (string * node))
  : list (string * node) :=
  match cs with
  | [] => []
  | e :: rest =>
      if String.eqb (fst e) name then (fst e, n) :: rest
      else e :: replaceChild name n rest
  end.

(** What [os.ReadDir] answers: the entries as (name, is a directory), an
    error for which [os.IsNotExist] holds, or another error. *)
Inductive readDir : Type :=
  | Entries (files : list (string * bool))
  | NotExist
  | ReadFailure (err : error).

(** ** The runner *)

Record Layer : Type := { Path : string }.

(** Where an execution writes an output stream: a [bytes.Buffer] of the
    caller, or the logger's writer. *)
Inductive writer : Type :=
  | Buffer (id : nat)
  | InfoWriter.

Record Execution : Type := {
  Command : string;
  Args : list string;
  Dir : string;
  Stdout : writer;
  Stderr : writer
}.

(** The state outside the runner: the process environment and the tree at
    [CargoHome]. *)
Record World : Type := {
  environ_of : environ;
  home_of : option node
}.

(** What an execution leaves behind: the content of each buffer, the error
    of the command, and the world after it. *)
Record Completed : Type := {
  buffers : nat -> string;
  failure : option error;
  after : World
}.

Record CargoRunner : Type := {
  CargoHome : string;
  CargoWorkspaceMembers : string;
  CargoInstallArgs : string;
  Executor : Execution -> World -> Completed;
  Stack : string;
  StaticType : string
}.

Definition StaticTypeMUSLC : string := "muslc".
Definition StaticTypeGNULIBC : string := "gnulibc".

Record metadataTarget : Type := {
  Kind : list string;
  Name : string;
  SrcPath : string
}.

Record metadataPackage : Type := {
  ID : string;
  Targets : list metadataTarget
}.

Record metadata : Type := {
  Packages : list metadataPackage;
  WorkspaceMembers_of : list string
}.

(** *** ParseWorkspaceMember (lines 251-277) *)
Definition ParseWorkspaceMember (workspaceMember : string)
  : outcome (string * string * string * option error) :=
  if HasPrefix workspaceMember "path+file://" then
    let half := SplitN workspaceMember "#" 2 in
    if negb (length half =? 2)%nat then
      Return ("", "", "",
              Some ("unable to parse workspace member [" +:+ workspaceMember
                    +:+ "], missing `#`"))
    else
      do half0 <- index half 0;
      do half1 <- index half 1;
      let otherHalf := SplitN half1 "@" 2 in
      if (length otherHalf =? 2)%nat then
        do otherHalf0 <- index otherHalf 0;
        do otherHalf1 <- index otherHalf 1;
        Return (TrimSpace otherHalf0, TrimSpace otherHalf1, TrimSpace half0,
                None)
      else
        let splitIndex := LastIndex half0 "/" in
        do path <- sliceTo half0 splitIndex;
        do pkgName <- sliceFrom half0 (splitIndex + 1);
        Return (TrimSpace pkgName, TrimSpace half1, TrimSpace path, None)
  else
    let parts := SplitN workspaceMember " " 3 in
    if negb (length parts =? 3)%nat then
      Return ("", "", "",
              Some ("unable to parse workspace member [" +:+ workspaceMember
                    +:+ "], unexpected format"))
    else
      do parts0 <- index parts 0;
      do parts1 <- index parts 1;
      do parts2 <- index parts 2;
      Return (TrimSpace parts0, TrimSpace parts1,
              TrimSuffix (TrimPrefix parts2 "(") ")", None).

(** *** makeFilterMap (lines 528-541) *)
Definition makeFilterMap (c : CargoRunner) : gmap string bool :=
  let filter := negb (String.eqb (CargoWorkspaceMembers c) "") in
  let filterMap : gmap string bool := ∅ in
  if filter then
    let filterMap :=
      if negb (Contains (CargoWorkspaceMembers c) ",")
      then <[CargoWorkspaceMembers c := true]> filterMap
      else filterMap in
    fold_left (fun m f => <[TrimSpace f := true]> m)
      (Split (CargoWorkspaceMembers c) ",") filterMap
  else filterMap.

(** [filterMap[key]]: a missing key reads as [false]. *)
Definition mapIndex (filterMap : gmap string bool) (key : string) : bool :=
  default false (filterMap !! key).

(** The test of lines 230 and 293:
    [len(filterMap) > 0 && filterMap[strings.TrimSpace(x)] || len(filterMap) == 0]. *)
Definition selected (filterMap : gmap string bool) (x : string) : bool :=
  (0 <? size filterMap)%nat && mapIndex filterMap (TrimSpace x)
  || (size filterMap =? 0)%nat.

(** The candidates that the loops of [WorkspaceMembers] and
    [ProjectTargets] keep, by package name. *)
Definition selectMembers (c : CargoRunner) (names : list string)
  : list string :=
  List.filter (selected (makeFilterMap c)) names.

(** *** The argument synthesiser *)

(** The loop of [FilterInstallArgs] (lines 435-450). *)
Fixpoint filterLoop (argwords : list string) (skipNext : bool)
  (filteredArgs : list string) : list string :=
  match argwords with
  | [] => filteredArgs
  | arg :: rest =>
      if skipNext then filterLoop rest false filteredArgs
      else if String.eqb arg "--root" || String.eqb arg "--color" then
        filterLoop rest true filteredArgs
      else if HasPrefix arg "--root=" || HasPrefix arg "--color=" then
        filterLoop rest false filteredArgs
      else filterLoop rest false (filteredArgs ++ [arg])
  end.

(** AddDefaultPath (lines 456-463). *)
Definition AddDefaultPath (args : list string) (defaultMemberPath : string)
  : list string :=
  if existsb (fun arg => String.eqb arg "--path" || HasPrefix arg "--path=")
       args
  then args
  else args ++ ["--path=" +:+ defaultMemberPath].

Section Collaborators.

(** What the runner takes from its dependencies: the tokenizer
    [shellwords.Parse], the stack tests of libpak, the architecture the
    binary was built for, the JSON decoder for the metadata, the URL parser,
    and the input/output failures of the file system, by path below
    [CargoHome]. *)
Variable shellwords_Parse : string -> list string + error.
Variable IsTinyStack IsStaticStack : string -> bool.
Variable GOARCH : string.
Variable json_Unmarshal : string -> metadata + error.
Variable URL : Type.
Variable url_Parse : string -> URL + error.
Variable ReadDir_fails RemoveAll_fails : list string -> option error.

(** FilterInstallArgs (lines 429-453). *)
Definition FilterInstallArgs (args : string) : list string * option error :=
  match shellwords_Parse args with
  | inr err => ([], Some ("parse args failed: " +:+ err))
  | inl argwords => (filterLoop argwords false [], None)
  end.

(** archFromSystem (lines 543-556). *)
Definition archFromSystem (env : environ) : string :=
  let archFromEnv :=
    match LookupEnv "BP_ARCH" env with
    | Some v => v
    | None => GOARCH
    end in
  if String.eqb archFromEnv "amd64" then "x86_64"
  else if String.eqb archFromEnv "arm64" then "aarch64"
  else archFromEnv.

(** AddDefaultTargetForTinyOrStatic (lines 466-504); the environment is
    threaded through, since the GNU variant sets [RUSTFLAGS]. *)
Definition AddDefaultTargetForTinyOrStatic (args : list string)
  (stack staticType : string) (env : environ)
  : environ * (list string * option error) :=
  if negb (IsTinyStack stack) && negb (IsStaticStack stack) then
    (env, (args, None))
  else if existsb
            (fun arg => String.eqb arg "--target" || HasPrefix arg "--target=")
            args then
    (env, (args, None))
  else
    let rustFlags := Getenv "RUSTFLAGS" env in
    if Contains rustFlags "target-feature=+crt-static" then
      (env, (args, None))
    else
      let arch := archFromSystem env in
      let target := "--target=" +:+ arch +:+ "-unknown-linux-musl" in
      if String.eqb staticType StaticTypeGNULIBC then
        let target := "--target=" +:+ arch +:+ "-unknown-linux-gnu" in
        let rustFlagsList : list string := [] in
        let rustFlagsList :=
          if (0 <? String.length rustFlags)%nat
          then rustFlagsList ++ [rustFlags] else rustFlagsList in
        let rustFlagsList :=
          rustFlagsList ++ ["-C target-feature=+crt-static"] in
        let newRustFlags := Join rustFlagsList " " in
        match Setenv "RUSTFLAGS" newRustFlags env with
        | inr err =>
            (env, ([], Some ("unable to set env RUSTFLAGS to [" +:+ newRustFlags
                             +:+ "]" +:+ nl +:+ err)))
        | inl env' => (env', (args ++ [target], None))
        end
      else (env, (args ++ [target], None)).

(** BuildArgs (lines 409-426). *)
Definition BuildArgs (c : CargoRunner) (destLayer : Layer)
  (defaultMemberPath : string) (env : environ)
  : environ * (list string * option error) :=
  match FilterInstallArgs (CargoInstallArgs c) with
  | (_, Some err) => (env, ([], Some ("filter failed: " +:+ err)))
  | (envArgs, None) =>
      let args := ["install"] in
      let args := args ++ envArgs in
      let args := args ++ ["--color=never"; "--root=" +:+ Path destLayer] in
      let args := AddDefaultPath args defaultMemberPath in
      match AddDefaultTargetForTinyOrStatic args (Stack c) (StaticType c) env
      with
      | (env', (_, Some err)) =>
          (env', ([], Some ("unable to add default target" +:+ nl +:+ err)))
      | (env', (args, None)) => (env', (args, None))
      end
  end.

(** *** CleanCargoHomeCache (lines 317-372) *)

(** [os.ReadDir] of the directory at [path] below [CargoHome], where the
    tree has [n]. *)
Definition ReadDir (path : list string) (n : option node) : readDir :=
  match ReadDir_fails path with
  | Some err => ReadFailure err
  | None =>
      match n with
      | None => NotExist
      | Some file => ReadFailure "not a directory"
      | Some (dir cs) => Entries (map (fun e => (fst e, IsDir (snd e))) cs)
      end
  end.

(** One of the three loops (lines 326-336, 344-353, 361-369): every listed
    entry that [keep] does not retain is removed from the directory [cs] at
    [path]; the first removal that fails ends the loop with the error. *)
Fixpoint pruneLoop (keep : string -> bool -> bool) (path : list string)
  (files : list (string * bool)) (cs : list (string * node))
  : list (string * node) * option error :=
  match files with
  | [] => (cs, None)
  | f :: rest =>
      if keep (fst f) (snd f) then pruneLoop keep path rest cs
      else match RemoveAll_fails (path ++ [fst f]) with
           | Some err => (cs, Some ("unable to remove files" +:+ nl +:+ err))
           | None => pruneLoop keep path rest (removeChild (fst f) cs)
           end
  end.

Definition keepHome (name : string) (isDir : bool) : bool :=
  isDir && String.eqb name "bin" ||
  isDir && String.eqb name "registry" ||
  isDir && String.eqb name "git".

Definition keepRegistry (name : string) (isDir : bool) : bool :=
  isDir && String.eqb name "index" ||
  isDir && String.eqb name "cache".

Definition keepGit (name : string) (isDir : bool) : bool :=
  isDir && String.eqb name "db".

(** The second and third blocks (lines 338-353, 355-369): list the
    directory [sub] of the home directory [cs] and prune it.  A directory
    that does not exist lists nothing. *)
Definition pruneSub (sub : string) (keep : string -> bool -> bool)
  (cs : list (string * node)) : list (string * node) * option error :=
  match ReadDir [sub] (lookupChild sub cs) with
  | ReadFailure err => (cs, Some ("unable to read directory" +:+ nl +:+ err))
  | NotExist => (cs, None)
  | Entries files =>
      match lookupChild sub cs with
      | Some (dir sc) =>
          let '(sc', err) := pruneLoop keep [sub] files sc in
          (replaceChild sub (dir sc') cs, err)
      | _ => (cs, None)
      end
  end.

Definition CleanCargoHomeCache (home : option node)
  : option node * option error :=
  match ReadDir [] home with
  | NotExist => (home, None)
  | ReadFailure err =>
      (home, Some ("unable to read directory" +:+ nl +:+ err))
  | Entries files =>
      match home with
      | Some (dir cs) =>
          match pruneLoop keepHome [] files cs with
          | (cs1, Some err) => (Some (dir cs1), Some err)
          | (cs1, None) =>
              match pruneSub "registry" keepRegistry cs1 with
              | (cs2, Some err) => (Some (dir cs2), Some err)
              | (cs2, None) =>
                  match pruneSub "git" keepGit cs2 with
                  | (cs3, err) => (Some (dir cs3), err)
                  end
              end
          end
      | _ => (home, None)
      end
  end.

(** *** The install orchestrator *)

(** [sherpa.AppendToEnvVar] of libpak: the current value of the variable,
    when it is set, followed by the given values, joined by the delimiter. *)
Definition AppendToEnvVar (name delimiter : string) (values : list string)
  (env : environ) : string :=
  let e := match LookupEnv name env with
           | Some s => [s]
           | None => []
           end in
  Join (e ++ values) delimiter.

(** Lines 165-172 of [InstallMember]: the search path is given the bin
    directory of the layer. *)
Definition refreshPath (destLayer : Layer) (env : environ)
  : environ * option error :=
  let path := Getenv "PATH" env in
  if negb (String.eqb path "") && negb (Contains path (Path destLayer)) then
    let path :=
      AppendToEnvVar "PATH" ":" [GoFilepath.Join [Path destLayer; "bin"]] env in
    match Setenv "PATH" path env with
    | inr err => (env, Some ("unable to update PATH" +:+ nl +:+ err))
    | inl env' => (env', None)
    end
  else (env, None).

(** Lines 165-178 of [InstallMember]: all that happens before the command
    is launched. *)
Definition prepareInstall (c : CargoRunner) (memberPath : string)
  (destLayer : Layer) (env : environ)
  : environ * (list string * option error) :=
  match refreshPath destLayer env with
  | (env1, Some err) => (env1, ([], Some err))
  | (env1, None) =>
      match BuildArgs c destLayer memberPath env1 with
      | (env2, (_, Some err)) =>
          (env2, ([], Some ("unable to build args" +:+ nl +:+ err)))
      | (env2, (args, None)) => (env2, (args, None))
      end
  end.

(** Lines 186-194 of [InstallMember]: once the command has run, its error
    is returned, or the cache is pruned. *)
Definition finishInstall (done : Completed) : World * option error :=
  match failure done with
  | Some err => (after done, Some ("unable to build" +:+ nl +:+ err))
  | None =>
      match CleanCargoHomeCache (home_of (after done)) with
      | (home, Some err) =>
          ({| environ_of := environ_of (after done); home_of := home |},
           Some ("unable to cleanup: " +:+ err))
      | (home, None) =>
          ({| environ_of := environ_of (after done); home_of := home |}, None)
      end
  end.

(** InstallMember (lines 163-195); the logger's lines are not modelled. *)
Definition InstallMember (c : CargoRunner) (memberPath srcDir : string)
  (destLayer : Layer) (w : World) : World * option error :=
  match prepareInstall c memberPath destLayer (environ_of w) with
  | (env, (_, Some err)) =>
      ({| environ_of := env; home_of := home_of w |}, Some err)
  | (env, (args, None)) =>
      finishInstall
        (Executor c
           {| Command := "cargo"; Args := args; Dir := srcDir;
              Stdout := InfoWriter; Stderr := InfoWriter |}
           {| environ_of := env; home_of := home_of w |})
  end.

(** Install (lines 158-160). *)
Definition Install (c : CargoRunner) (srcDir : string) (destLayer : Layer)
  : World -> World * option error :=
  InstallMember c "." srcDir destLayer.

(** *** The versions of the tools *)

(** CargoVersion (lines 375-389): both streams go to one buffer. *)
Definition CargoVersion (c : CargoRunner) (w : World)
  : World * outcome (string * option error) :=
  let done :=
    Executor c
      {| Command := "cargo"; Args := ["version"]; Dir := "";
         Stdout := Buffer 0; Stderr := Buffer 0 |} w in
  match failure done with
  | Some err =>
      (after done,
       Return ("", Some ("error executing 'cargo version':" +:+ nl
                         +:+ " Combined Output: " +:+ buffers done 0%nat
                         +:+ ": " +:+ nl +:+ err)))
  | None =>
      let s := SplitN (TrimSpace (buffers done 0%nat)) " " 3 in
      (after done, do v <- index s 1; Return (v, None))
  end.

(** RustVersion (lines 392-406). *)
Definition RustVersion (c : CargoRunner) (w : World)
  : World * outcome (string * option error) :=
  let done :=
    Executor c
      {| Command := "rustc"; Args := ["--version"]; Dir := "";
         Stdout := Buffer 0; Stderr := Buffer 0 |} w in
  match failure done with
  | Some err =>
      (after done,
       Return ("", Some ("error executing 'rustc --version':" +:+ nl
                         +:+ " Combined Output: " +:+ buffers done 0%nat
                         +:+ ": " +:+ nl +:+ err)))
  | None =>
      let s := Split (TrimSpace (buffers done 0%nat)) " " in
      (after done, do v <- index s 1; Return (v, None))
  end.

(** *** The metadata and the workspace members *)

(** fetchCargoMetadata (lines 506-526): standard output goes to buffer 0,
    standard error to buffer 1. *)
Definition fetchCargoMetadata (c : CargoRunner) (srcDir : string) (w : World)
  : World * (metadata * option error) :=
  let done :=
    Executor c
      {| Command := "cargo";
         Args := ["metadata"; "--format-version=1"; "--no-deps"];
         Dir := srcDir; Stdout := Buffer 0; Stderr := Buffer 1 |} w in
  match failure done with
  | Some err =>
      (after done,
       ({| Packages := []; WorkspaceMembers_of := [] |},
        Some ("unable to read metadata: " +:+ nl +:+ buffers done 0%nat +:+ nl
              +:+ buffers done 1%nat +:+ nl +:+ err)))
  | None =>
      match json_Unmarshal (buffers done 0%nat) with
      | inr err =>
          (after done,
           ({| Packages := []; WorkspaceMembers_of := [] |},
            Some ("unable to parse Cargo metadata: " +:+ err)))
      | inl m => (after done, (m, None))
      end
  end.

(** The loop of [WorkspaceMembers] (lines 224-237). *)
Fixpoint membersLoop (filterMap : gmap string bool) (members : list string)
  (paths : list URL) : outcome (list URL * option error) :=
  match members with
  | [] => Return (paths, None)
  | workspace :: rest =>
      do parsed <- ParseWorkspaceMember workspace;
      let '(pkgName, _, pathUrl, err) := parsed in
      match err with
      | Some err => Return ([], Some ("unable to parse: " +:+ err))
      | None =>
          if selected filterMap pkgName then
            match url_Parse pathUrl with
            | inr err =>
                Return ([], Some ("unable to parse path URL " +:+ workspace
                                  +:+ ": " +:+ err))
            | inl path => membersLoop filterMap rest (paths ++ [path])
            end
          else membersLoop filterMap rest paths
      end
  end.

(** WorkspaceMembers (lines 215-240). *)
Definition WorkspaceMembers (c : CargoRunner) (srcDir : string)
  (destLayer : Layer) (w : World)
  : World * outcome (list URL * option error) :=
  match fetchCargoMetadata c srcDir w with
  | (w', (_, Some err)) =>
      (w', Return ([], Some ("unable to load cargo metadata" +:+ nl +:+ err)))
  | (w', (m, None)) =>
      (w', membersLoop (makeFilterMap c) (WorkspaceMembers_of m) [])
  end.

(** The first loop of [ProjectTargets] (lines 289-296): the members whose
    first space-separated field is selected. *)
Fixpoint workspacesLoop (filterMap : gmap string bool) (members : list string)
  (workspaces : list string) : outcome (list string) :=
  match members with
  | [] => Return workspaces
  | workspace :: rest =>
      let parts := SplitN workspace " " 3 in
      do parts0 <- index parts 0;
      if selected filterMap parts0
      then workspacesLoop filterMap rest (workspaces ++ [workspace])
      else workspacesLoop filterMap rest workspaces
  end.

(** The second loop of [ProjectTargets] (lines 299-311): the names of the
    [bin] targets below [srcDir] of the packages that are kept members, once
    for each matching member and kind. *)
Definition targetNames (srcDir : string) (packages : list metadataPackage)
  (workspaces : list string) : list string :=
  flat_map (fun pkg =>
    flat_map (fun workspace =>
      if String.eqb (ID pkg) workspace then
        flat_map (fun target =>
          flat_map (fun kind =>
            if String.eqb kind "bin" && HasPrefix (SrcPath target) srcDir
            then [Name target] else [])
            (Kind target))
          (Targets pkg)
      else [])
      workspaces)
    packages.

(** ProjectTargets (lines 280-314). *)
Definition ProjectTargets (c : CargoRunner) (srcDir : string) (w : World)
  : World * outcome (list string * option error) :=
  match fetchCargoMetadata c srcDir w with
  | (w', (_, Some err)) =>
      (w', Return ([], Some ("unable to load cargo metadata" +:+ nl +:+ err)))
  | (w', (m, None)) =>
      (w', do workspaces <-
             workspacesLoop (makeFilterMap c) (WorkspaceMembers_of m) [];
           Return (targetNames srcDir (Packages m) workspaces, None))
  end.

End Collaborators.

(** *** Vocabulary of the properties *)

(** The tokens that set the install root or the colour mode: the tests of
    lines 442 and 446. *)
Definition setsRoot (arg : string) : bool :=
  String.eqb arg "--root" || HasPrefix arg "--root=".

Definition setsColor (arg : string) : bool :=
  String.eqb arg "--color" || HasPrefix arg "--color=".

(** A token is neutral when it sets neither the root nor the colour. *)
Definition neutral (arg : string) : Prop :=
  setsRoot arg = false /\ setsColor arg = false.

Definition countTokens (p : string -> bool) (args : list string) : nat :=
  length (List.filter p args).

(** The architecture names that [archFromSystem] translates. *)
Definition rustArch (goarch : string) : string :=
  if String.eqb goarch "amd64" then "x86_64"
  else if String.eqb goarch "arm64" then "aarch64"
  else goarch.

(** Sample collaborators, for the concrete instances below: an executor
    whose commands write nothing and change nothing, a tokenizer for
    argument strings made of plain words separated by single spaces, the
    stack tests of libpak (stack.go), and a file system without failures. *)
Definition idleExecutor (_ : Execution) (w : World) : Completed :=
  {| buffers := fun _ => ""; failure := None; after := w |}.

Definition plainWords (args : string) : list string + error :=
  inl (List.filter (fun a => negb (String.eqb a "")) (Split args " ")).

Definition libpakIsTinyStack (stack : string) : bool :=
  String.eqb stack "io.paketo.stacks.tiny" ||
  String.eqb stack "io.buildpacks.stacks.jammy.tiny".

Definition libpakIsStaticStack (stack : string) : bool :=
  String.eqb stack "io.buildpacks.stacks.jammy.static".

Definition noFailure (_ : list string) : option error := None.

Definition sampleRunner (members args stack staticType : string) : CargoRunner :=
  {| CargoHome := "/home/cnb/.cargo"; CargoWorkspaceMembers := members;
     CargoInstallArgs := args; Executor := idleExecutor;
     Stack := stack; StaticType := staticType |}.

(** An executor that prints [out] to the first buffer and succeeds. *)
Definition printingExecutor (out : string) (_ : Execution) (w : World)
  : Completed :=
  {| buffers := fun id => match id with O => out | S _ => "" end;
     failure := None; after := w |}.

(** The entries of a directory as [os.ReadDir] lists them. *)
Definition listing (cs : list (string * node)) : list (string * bool) :=
  map (fun e => (fst e, IsDir (snd e))) cs.

Definition named (names : list string) (name : string) : bool :=
  existsb (String.eqb name) names.

(** The names that a pruning loop removes from a listing, and the error it
    ends with: the entries [keep] does not retain, up to the first whose
    removal fails. *)
Fixpoint removedNames (fails : list string -> option error)
  (keep : string -> bool -> bool) (path : list string)
  (files : list (string * bool)) : list string :=
  match files with
  | [] => []
  | f :: rest =>
      if keep (fst f) (snd f) then removedNames fails keep path rest
      else match fails (path ++ [fst f]) with
           | Some _ => []
           | None => fst f :: removedNames fails keep path rest
           end
  end.

Fixpoint loopError (fails : list string -> option error)
  (keep : string -> bool -> bool) (path : list string)
  (files : list (string * bool)) : option error :=
  match files with
  | [] => None
  | f :: rest =>
      if keep (fst f) (snd f) then loopError fails keep path rest
      else match fails (path ++ [fst f]) with
           | Some err => Some ("unable to remove files" +:+ nl +:+ err)
           | None => loopError fails keep path rest
           end
  end.

(** A sample cargo home. *)
Definition sampleHome : node :=
  dir [ (".crates.toml", file);
        ("bin", dir [("cargo-audit", file)]);
        ("git", dir [("checkouts", dir []); ("db", dir [("repo", dir [])])]);
        ("registry", dir [("cache", dir []); ("index", dir []);
                          ("src", dir [("crate-1.0", dir [])])]);
        ("tmp", dir []) ].

(** *** InstallTool (lines 197-212) *)

(** The tool is installed with the arguments as given: nothing is filtered,
    the search path and the cache are left alone. *)
Definition InstallTool (c : CargoRunner) (name : string)
  (additionalArgs : list string) (w : World) : World * option error :=
  let args := ["install"; name] in
  let args := args ++ additionalArgs in
  let done :=
    Executor c
      {| Command := "cargo"; Args := args; Dir := "";
         Stdout := InfoWriter; Stderr := InfoWriter |} w in
  match failure done with
  | Some err => (after done, Some ("unable to install tool" +:+ nl +:+ err))
  | None => (after done, None)
  end.

(** *** Further vocabulary *)

(** The tests of lines 458 and 473. *)
Definition setsPath (arg : string) : bool :=
  String.eqb arg "--path" || HasPrefix arg "--path=".

Definition setsTarget (arg : string) : bool :=
  String.eqb arg "--target" || HasPrefix arg "--target=".

(** The text of a string up to its first space: [parts[0]] of
    [strings.SplitN(s, " ", 3)]. *)
Definition firstField (s : string) : string :=
  match cut s " " with
  | Some (a, _) => a
  | None => s
  end.

(** The text between the first and the second space, when there is a
    space. *)
Definition secondField (s : string) : option string :=
  match cut s " " with
  | Some (_, b) => Some (firstField b)
  | None => None
  end.

(** A member parses for a filter into the item (name, location) when it
    parses without error to that name and, if the name is selected, its
    location text is the URL of the item. *)
Definition parsedMember (URL : Type) (url_Parse : string -> URL + error)
  (filterMap : gmap string bool) (w : string) (item : string * URL) : Prop :=
  exists v p, ParseWorkspaceMember w = Return (fst item, v, p, None) /\
              (selected filterMap (fst item) = true ->
               url_Parse p = inl (snd item)).

(** The node at a path below a tree. *)
Fixpoint lookupPath (path : list string) (n : option node) : option node :=
  match path with
  | [] => n
  | name :: rest =>
      match n with
      | Some (dir cs) => lookupPath rest (lookupChild name cs)
      | _ => None
      end
  end.

(** A directory that holds only what [keep] retains, and a cargo home that
    holds only what the three levels retain. *)
Definition retainedOnly (keep : string -> bool -> bool)
  (cs : list (string * node)) : Prop :=
  Forall (fun e => keep (fst e) (IsDir (snd e)) = true) cs.

Definition prunedHome (home : option node) : Prop :=
  match home with
  | Some (dir cs) =>
      retainedOnly keepHome cs /\
      (forall rs, lookupChild "registry" cs = Some (dir rs) ->
                  retainedOnly keepRegistry rs) /\
      (forall gs, lookupChild "git" cs = Some (dir gs) ->
                  retainedOnly keepGit gs)
  | _ => True
  end.

(** More sample collaborators: a metadata decoder that answers with two
    workspace members, a URL parser that accepts every string, a tokenizer
    that rejects every string, and an executor whose command fails. *)
Definition sampleMetadata : metadata :=
  {| Packages :=
       [ {| ID := "path+file:///ws/a#0.1.0";
            Targets := [ {| Kind := ["bin"]; Name := "a";
                            SrcPath := "/ws/a/src/main.rs" |};
                         {| Kind := ["lib"]; Name := "a";
                            SrcPath := "/ws/a/src/lib.rs" |} ] |} ];
     WorkspaceMembers_of :=
       ["path+file:///ws/a#0.1.0"; "path+file:///ws#b@0.2.0"] |}.

Definition sampleUnmarshal (_ : string) : metadata + error :=
  inl sampleMetadata.

Definition anyURL (s : string) : string + error := inl s.

Definition noWords (_ : string) : list string + error :=
  inr "invalid command line string".

Definition failingExecutor (_ : Execution) (w : World) : Completed :=
  {| buffers := fun _ => ""; failure := Some "exit status 101"; after := w |}.

(** * Properties *)

(** ** Byte strings *)
Section StringFacts.

Lemma str_app_cons c (a b : string) : String c a +:+ b = String c (a +:+ b).
Proof. reflexivity. Qed.

Lemma str_app_nil_r (a : string) : a +:+ "" = a.
Proof. induction a as [|c a IH]; [reflexivity|]. rewrite str_app_cons, IH. reflexivity. Qed.

Lemma str_app_assoc (a b c : string) : (a +:+ b) +:+ c = a +:+ b +:+ c.
Proof.
  induction a as [|x a IH]; [reflexivity|].
  rewrite !str_app_cons, IH. reflexivity.
Qed.

Lemma str_length_app (a b : string) :
  String.length (a +:+ b) = (String.length a + String.length b)%nat.
Proof.
  induction a as [|x a IH]; [reflexivity|].
  rewrite str_app_cons. simpl. rewrite IH. reflexivity.
Qed.

Lemma substring_all (a : string) : substring 0 (String.length a) a = a.
Proof. induction a as [|x a IH]; [reflexivity|]. simpl. rewrite IH. reflexivity. Qed.

Lemma substring_app_l (a b : string) :
  substring 0 (String.length a) (a +:+ b) = a.
Proof.
  induction a as [|x a IH].
  - destruct b; reflexivity.
  - rewrite str_app_cons. simpl. rewrite IH. reflexivity.
Qed.

Lemma substring_app_r (a b : string) :
  substring (String.length a) (String.length b) (a +:+ b) = b.
Proof.
  induction a as [|x a IH].
  - apply substring_all.
  - rewrite str_app_cons. simpl. exact IH.
Qed.

Lemma prefix_app (p s : string) : String.prefix p (p +:+ s) = true.
Proof.
  induction p as [|x p IH]; [destruct s; reflexivity|].
  rewrite str_app_cons. simpl. destruct (ascii_dec x x); [exact IH|congruence].
Qed.

Lemma prefix_cons c d (p s : string) :
  String.prefix (String c p) (String d s) = Ascii.eqb c d && String.prefix p s.
Proof.
  simpl. destruct (ascii_dec c d) as [->|Hne].
  - rewrite Ascii.eqb_refl. reflexivity.
  - apply Ascii.eqb_neq in Hne. rewrite Hne. reflexivity.
Qed.

Lemma prefix_nil (s : string) : String.prefix "" s = true.
Proof. destruct s; reflexivity. Qed.

Lemma prefix_decompose (p s : string) :
  String.prefix p s = true -> exists r, s = p +:+ r.
Proof.
  revert s. induction p as [|c p IH]; intros s H.
  - exists s. reflexivity.
  - destruct s as [|d s]; [discriminate|].
    rewrite prefix_cons in H. apply andb_true_iff in H as [Hc Hp].
    apply Ascii.eqb_eq in Hc as ->.
    destruct (IH _ Hp) as [r ->]. exists r. reflexivity.
Qed.

Lemma hasByte_app c (a b : string) :
  hasByte c (a +:+ b) = hasByte c a || hasByte c b.
Proof.
  induction a as [|x a IH]; [reflexivity|].
  rewrite str_app_cons. simpl. rewrite IH. apply orb_assoc.
Qed.

(** A prefix without the byte [c] that starts [u ++ c ++ f], where [u] is
    free of [c], already starts [u]. *)
Lemma prefix_before_byte c (p u f : string) :
  hasByte c p = false -> hasByte c u = false ->
  String.prefix p (u +:+ String c f) = true -> String.prefix p u = true.
Proof.
  revert u. induction p as [|x p IH]; intros u Hp Hu H.
  - apply prefix_nil.
  - simpl in Hp. apply orb_false_iff in Hp as [Hx Hp].
    destruct u as [|y u].
    + change ("" +:+ String c f) with (String c f) in H.
      rewrite prefix_cons in H. apply andb_true_iff in H as [H _].
      congruence.
    + rewrite str_app_cons in H. rewrite prefix_cons in H |- *.
      apply andb_true_iff in H as [H1 H2]. rewrite H1. simpl.
      simpl in Hu. apply orb_false_iff in Hu as [_ Hu]. eauto.
Qed.

Lemma Contains_byte c (s : string) : Contains s (String c "") = hasByte c s.
Proof.
  induction s as [|x s IH]; [reflexivity|].
  cbn [Contains hasByte]. rewrite prefix_cons, prefix_nil, andb_true_r, IH.
  rewrite Ascii.eqb_sym. reflexivity.
Qed.

Lemma cut_None (s : string) sep : hasByte sep s = false -> cut s sep = None.
Proof.
  induction s as [|x s IH]; [reflexivity|]. simpl. intros H.
  apply orb_false_iff in H as [-> H]. rewrite (IH H). reflexivity.
Qed.

Lemma cut_app (a b : string) sep :
  hasByte sep a = false -> cut (a +:+ String sep b) sep = Some (a, b).
Proof.
  induction a as [|x a IH]; intros H.
  - change ("" +:+ String sep b) with (String sep b). simpl.
    rewrite Ascii.eqb_refl. reflexivity.
  - simpl in H. apply orb_false_iff in H as [Hx H].
    rewrite str_app_cons. simpl. rewrite Hx, (IH H). reflexivity.
Qed.

Lemma cut_Some (s a b : string) sep :
  cut s sep = Some (a, b) -> s = a +:+ String sep b /\ hasByte sep a = false.
Proof.
  revert a. induction s as [|x s IH]; intros a H; [discriminate|].
  simpl in H. destruct (Ascii.eqb x sep) eqn:E.
  - apply Ascii.eqb_eq in E as ->. inversion H; subst. split; reflexivity.
  - destruct (cut s sep) as [[a' b']|] eqn:C; [|discriminate].
    inversion H; subst. destruct (IH _ eq_refl) as [-> Ha].
    split; [reflexivity|]. simpl. rewrite E, Ha. reflexivity.
Qed.

Lemma cut_is_Some (s : string) sep :
  hasByte sep s = true -> exists a b, cut s sep = Some (a, b).
Proof.
  induction s as [|x s IH]; [discriminate|]. simpl. intros H.
  destruct (Ascii.eqb x sep); [eauto|].
  destruct (IH H) as (a & b & ->). eauto.
Qed.

Lemma Count_0 (s : string) sep : hasByte sep s = false -> Count s sep = 0%nat.
Proof.
  induction s as [|x s IH]; [reflexivity|]. simpl. intros H.
  apply orb_false_iff in H as [-> H]. rewrite (IH H). reflexivity.
Qed.

Lemma Count_app (a b : string) sep :
  Count (a +:+ b) sep = (Count a sep + Count b sep)%nat.
Proof.
  induction a as [|x a IH]; [reflexivity|].
  rewrite str_app_cons. simpl. rewrite IH. lia.
Qed.

Lemma Count_pos (s : string) sep :
  hasByte sep s = true -> (0 < Count s sep)%nat.
Proof.
  induction s as [|x s IH]; [discriminate|]. simpl.
  destruct (Ascii.eqb x sep); simpl; [lia|auto].
Qed.

(** [SplitN] gives one piece more than there are separators, up to [n]. *)
Lemma length_SplitN (s : string) sep n :
  length (SplitN s sep n) = Nat.min n (Count s sep + 1).
Proof.
  revert s. induction n as [|n IH]; intros s; [reflexivity|].
  destruct n as [|n]; [change (SplitN s sep 1) with [s]; cbn [length]; lia|].
  change (SplitN s sep (S (S n)))
    with (match cut s sep with
          | None => [s]
          | Some (a, b) => a :: SplitN b sep (S n)
          end).
  destruct (cut s sep) as [[a b]|] eqn:C.
  - apply cut_Some in C as [-> Ha].
    cbn [length]. rewrite IH, Count_app. simpl Count.
    rewrite Ascii.eqb_refl, (Count_0 _ _ Ha). lia.
  - destruct (hasByte sep s) eqn:H.
    + apply cut_is_Some in H as (a & b & H). congruence.
    + rewrite (Count_0 _ _ H). simpl. lia.
Qed.

Lemma length_Split (s : string) sep :
  length (Split s sep) = (Count s sep + 1)%nat.
Proof. unfold Split. rewrite length_SplitN. lia. Qed.

Lemma SplitN_S_S (s : string) sep n :
  SplitN s sep (S (S n)) =
  match cut s sep with
  | None => [s]
  | Some (a, b) => a :: SplitN b sep (S n)
  end.
Proof. reflexivity. Qed.

Lemma Split_no_sep (s : string) sep : hasByte sep s = false -> Split s sep = [s].
Proof. intros H. unfold Split. rewrite (Count_0 _ _ H). reflexivity. Qed.

(** The last separator of a string that has one. *)
Lemma LastIndex_absent (s : string) sep :
  hasByte sep s = false -> LastIndex s sep = -1.
Proof.
  induction s as [|x s IH]; [reflexivity|]. simpl. intros H.
  apply orb_false_iff in H as [-> H]. rewrite (IH H). reflexivity.
Qed.

Lemma LastIndex_present (s : string) sep :
  hasByte sep s = true ->
  exists d g, s = d +:+ String sep g /\ hasByte sep g = false /\
              LastIndex s sep = Z.of_nat (String.length d).
Proof.
  induction s as [|x s IH]; [discriminate|]. intros H.
  destruct (hasByte sep s) eqn:Hs.
  - destruct (IH eq_refl) as (d & g & -> & Hg & Hi).
    exists (String x d), g. split; [reflexivity|]. split; [exact Hg|].
    cbn [LastIndex]. rewrite Hi.
    destruct (0 <=? Z.of_nat (String.length d)) eqn:E; [|lia].
    cbn [String.length]. lia.
  - simpl in H. rewrite Hs, orb_false_r in H.
    apply Ascii.eqb_eq in H as ->.
    exists "", s. split; [reflexivity|]. split; [exact Hs|].
    cbn [LastIndex]. rewrite (LastIndex_absent _ _ Hs). simpl.
    rewrite Ascii.eqb_refl. reflexivity.
Qed.

Lemma sliceTo_app (d r : string) :
  sliceTo (d +:+ r) (Z.of_nat (String.length d)) = Return d.
Proof.
  unfold sliceTo. rewrite str_length_app.
  replace ((0 <=? Z.of_nat (String.length d)) &&
           (Z.of_nat (String.length d) <=?
            Z.of_nat (String.length d + String.length r))) with true
    by (symmetry; apply andb_true_iff; split; apply Z.leb_le; lia).
  rewrite Nat2Z.id, substring_app_l. reflexivity.
Qed.

Lemma sliceFrom_app (d r : string) :
  sliceFrom (d +:+ r) (Z.of_nat (String.length d)) = Return r.
Proof.
  unfold sliceFrom. rewrite str_length_app.
  replace ((0 <=? Z.of_nat (String.length d)) &&
           (Z.of_nat (String.length d) <=?
            Z.of_nat (String.length d + String.length r))) with true
    by (symmetry; apply andb_true_iff; split; apply Z.leb_le; lia).
  rewrite Nat2Z.id.
  replace (String.length d + String.length r - String.length d)%nat
    with (String.length r) by lia.
  rewrite substring_app_r. reflexivity.
Qed.

Lemma sliceFrom_after (d g : string) c :
  sliceFrom (d +:+ String c g) (Z.of_nat (String.length d) + 1) = Return g.
Proof.
  replace (d +:+ String c g) with ((d +:+ String c "") +:+ g)
    by (rewrite str_app_assoc; reflexivity).
  replace (Z.of_nat (String.length d) + 1)
    with (Z.of_nat (String.length (d +:+ String c "")))
    by (rewrite str_length_app; cbn [String.length]; lia).
  apply sliceFrom_app.
Qed.

End StringFacts.

(** ** Trimming *)
Section Trim.

Variable ws : list (list ascii).
Hypothesis ws_nonempty : Forall (fun w => w <> []) ws.

Lemma stripPrefix_Some (w l r : list ascii) :
  stripPrefix w l = Some r <-> l = w ++ r.
Proof.
  revert l. induction w as [|a w IH]; intros l.
  - simpl. split; [intros [= ->]|intros ->]; reflexivity.
  - destruct l as [|b l]; simpl.
    + split; discriminate.
    + destruct (Ascii.eqb a b) eqn:E.
      * apply Ascii.eqb_eq in E as ->. rewrite IH.
        split; [intros ->; reflexivity|intros [= ->]; reflexivity].
      * apply Ascii.eqb_neq in E. split; [discriminate|intros [= ? ?]; congruence].
Qed.

Lemma stripOne_Some (l r : list ascii) :
  stripOne ws l = Some r -> exists w, In w ws /\ l = w ++ r.
Proof.
  clear ws_nonempty. induction ws as [|w ws' IH]; [discriminate|].
  simpl. destruct (stripPrefix w l) as [r'|] eqn:E.
  - intros [= ->]. apply stripPrefix_Some in E. eauto.
  - intros H. destruct (IH H) as (w' & Hin & ->). eauto.
Qed.

Lemma stripOne_None (l : list ascii) :
  stripOne ws l = None <-> forall w r, In w ws -> l <> w ++ r.
Proof.
  clear ws_nonempty. induction ws as [|w ws' IH].
  - simpl. split; [intros _ ? ? []|reflexivity].
  - simpl. destruct (stripPrefix w l) as [r'|] eqn:E.
    + apply stripPrefix_Some in E. split; [discriminate|].
      intros H. exfalso. apply (H w r'); auto.
    + rewrite IH. split.
      * intros H w' r [<-|Hin] Heq; [|exact (H _ _ Hin Heq)].
        apply stripPrefix_Some in Heq. congruence.
      * intros H w' r Hin. apply H. auto.
Qed.

Lemma stripOne_shorter (l r : list ascii) :
  stripOne ws l = Some r -> (length r < length l)%nat.
Proof.
  intros H. destruct (stripOne_Some _ _ H) as (w & Hin & ->).
  rewrite List.Forall_forall in ws_nonempty. specialize (ws_nonempty _ Hin).
  rewrite length_app. destruct w; [congruence|simpl; lia].
Qed.

(** With fuel for every byte, the loop ends on a string that starts with
    no rune of [ws]. *)
Lemma trimLeftN_done n (l : list ascii) :
  (length l <= n)%nat -> stripOne ws (trimLeftN ws n l) = None.
Proof.
  revert l. induction n as [|n IH]; intros l Hn.
  - destruct l; [|simpl in Hn; lia]. simpl.
    apply stripOne_None. intros w r Hin Heq.
    rewrite List.Forall_forall in ws_nonempty. specialize (ws_nonempty _ Hin).
    destruct w; [congruence|discriminate].
  - simpl. destruct (stripOne ws l) as [r|] eqn:E; [|exact E].
    apply IH. apply stripOne_shorter in E. lia.
Qed.

Lemma trimLeft_done (l : list ascii) : stripOne ws (trimLeft ws l) = None.
Proof. apply trimLeftN_done. lia. Qed.

Lemma trimLeftN_fixed n (l : list ascii) :
  stripOne ws l = None -> trimLeftN ws n l = l.
Proof. intros H. destruct n; simpl; [reflexivity|]. rewrite H. reflexivity. Qed.

Lemma trimLeft_fixed (l : list ascii) :
  stripOne ws l = None -> trimLeft ws l = l.
Proof. apply trimLeftN_fixed. Qed.

Lemma trimLeft_idem (l : list ascii) :
  trimLeft ws (trimLeft ws l) = trimLeft ws l.
Proof. apply trimLeft_fixed, trimLeft_done. Qed.

(** What the loop returns is the end of its argument. *)
Lemma trimLeftN_suffix n (l : list ascii) :
  exists p, l = p ++ trimLeftN ws n l.
Proof.
  clear ws_nonempty. revert l. induction n as [|n IH]; intros l.
  - exists []. reflexivity.
  - simpl. destruct (stripOne ws l) as [r|] eqn:E.
    + destruct (stripOne_Some _ _ E) as (w & _ & ->).
      destruct (IH r) as [p Hp]. exists (w ++ p).
      rewrite <- app_assoc, <- Hp. reflexivity.
    + exists []. reflexivity.
Qed.

(** A string that starts with no rune of [ws] has no such beginning. *)
Lemma stripOne_None_prefix (u x : list ascii) :
  stripOne ws (u ++ x) = None -> stripOne ws u = None.
Proof.
  clear ws_nonempty. rewrite !stripOne_None. intros H w r Hin ->.
  apply (H w (r ++ x) Hin). rewrite app_assoc. reflexivity.
Qed.

End Trim.

Lemma whiteSpace_nonempty : Forall (fun w => w <> []) whiteSpace.
Proof. repeat constructor; discriminate. Qed.

Lemma rev_whiteSpace_nonempty :
  Forall (fun w => w <> []) (map (@rev ascii) whiteSpace).
Proof. repeat constructor; discriminate. Qed.

Lemma trimRight_prefix ws (l : list ascii) :
  exists q, l = trimRight ws l ++ q.
Proof.
  unfold trimRight, trimLeft.
  destruct (trimLeftN_suffix (map (@rev ascii) ws) (length (rev l)) (rev l))
    as [p Hp].
  exists (rev p). rewrite <- rev_app_distr, <- Hp, rev_involutive. reflexivity.
Qed.

Lemma trimRight_idem ws (l : list ascii) :
  Forall (fun w => w <> []) (map (@rev ascii) ws) ->
  trimRight ws (trimRight ws l) = trimRight ws l.
Proof.
  intros H. unfold trimRight. rewrite rev_involutive, trimLeft_idem; auto.
Qed.

Lemma trimmed_no_leading (l : list ascii) :
  stripOne whiteSpace (trimmed l) = None.
Proof.
  unfold trimmed.
  destruct (trimRight_prefix whiteSpace (trimLeft whiteSpace l)) as [q Hq].
  apply stripOne_None_prefix with (x := q). rewrite <- Hq.
  apply trimLeft_done, whiteSpace_nonempty.
Qed.

Lemma trimmed_idem (l : list ascii) : trimmed (trimmed l) = trimmed l.
Proof.
  unfold trimmed at 1.
  rewrite (trimLeft_fixed _ _ (trimmed_no_leading l)).
  unfold trimmed. apply trimRight_idem, rev_whiteSpace_nonempty.
Qed.

(** [TrimSpace] has nothing left to trim from its result. *)
Lemma TrimSpace_idem (s : string) : TrimSpace (TrimSpace s) = TrimSpace s.
Proof.
  unfold TrimSpace. rewrite list_ascii_of_string_of_list_ascii.
  f_equal. apply trimmed_idem.
Qed.

(** ** The workspace-member parser *)

Lemma SplitN_2_cut (a b : string) sep :
  hasByte sep a = false -> SplitN (a +:+ String sep b) sep 2 = [a; b].
Proof. intros H. rewrite SplitN_S_S, (cut_app _ _ _ H). reflexivity. Qed.

Lemma SplitN_2_whole (s : string) sep :
  hasByte sep s = false -> SplitN s sep 2 = [s].
Proof. intros H. rewrite SplitN_S_S, (cut_None _ _ H). reflexivity. Qed.

Lemma SplitN_3_cut (a b c : string) sep :
  hasByte sep a = false -> hasByte sep b = false ->
  SplitN (a +:+ String sep (b +:+ String sep c)) sep 3 = [a; b; c].
Proof.
  intros Ha Hb. rewrite SplitN_S_S, (cut_app _ _ _ Ha).
  rewrite SplitN_S_S, (cut_app _ _ _ Hb). reflexivity.
Qed.

(** Two pieces come from a string with a separator, cut at the first. *)
Lemma SplitN_2_inv (s a b : string) sep :
  SplitN s sep 2 = [a; b] -> s = a +:+ String sep b /\ hasByte sep a = false.
Proof.
  rewrite SplitN_S_S. destruct (cut s sep) as [[a' b']|] eqn:C; [|discriminate].
  intros [= <- <-]. apply cut_Some, C.
Qed.

Lemma TrimPrefix_app c (r : string) : TrimPrefix (String c r) (String c "") = r.
Proof.
  unfold TrimPrefix, HasPrefix. rewrite prefix_cons, Ascii.eqb_refl, prefix_nil.
  cbn [andb String.length].
  replace (S (String.length r) - 1)%nat with (String.length r) by lia.
  cbn [substring]. apply substring_all.
Qed.

Lemma TrimSuffix_app c (r : string) :
  TrimSuffix (r +:+ String c "") (String c "") = r.
Proof.
  unfold TrimSuffix, HasSuffix. rewrite str_length_app. cbn [String.length].
  replace (String.length r + 1 - 1)%nat with (String.length r) by lia.
  rewrite (substring_app_r r (String c "") : substring _ 1 _ = _).
  rewrite String.eqb_refl, andb_true_r.
  replace (1 <=? String.length r + 1)%nat with true
    by (symmetry; apply Nat.leb_le; lia).
  apply substring_app_l.
Qed.

(** The identifier of a prefixed string carries the prefix before its
    first ['#'], hence a ['/']. *)
Lemma prefixed_has_slash (u f : string) :
  HasPrefix (u +:+ String "#" f) "path+file://" = true ->
  hasByte "#" u = false -> hasByte "/" u = true.
Proof.
  intros Hp Hu. unfold HasPrefix in Hp.
  apply prefix_before_byte in Hp; [|reflexivity|exact Hu].
  apply prefix_decompose in Hp as [r ->].
  rewrite hasByte_app. reflexivity.
Qed.

Lemma ParseWorkspaceMember_at (u n v : string) :
  HasPrefix (u +:+ "#" +:+ n +:+ "@" +:+ v) "path+file://" = true ->
  hasByte "#" u = false -> hasByte "@" n = false ->
  ParseWorkspaceMember (u +:+ "#" +:+ n +:+ "@" +:+ v) =
  Return (TrimSpace n, TrimSpace v, TrimSpace u, None).
Proof.
  intros Hp Hu Hn. unfold ParseWorkspaceMember. rewrite Hp.
  change ("#" +:+ n +:+ "@" +:+ v) with (String "#" (n +:+ String "@" v)).
  rewrite (SplitN_2_cut _ _ _ Hu). cbn [length Nat.eqb negb index lookup list_lookup obind].
  rewrite (SplitN_2_cut _ _ _ Hn). reflexivity.
Qed.

Lemma ParseWorkspaceMember_bare (u f : string) :
  HasPrefix (u +:+ "#" +:+ f) "path+file://" = true ->
  hasByte "#" u = false -> hasByte "@" f = false ->
  exists d g,
    u = d +:+ "/" +:+ g /\ hasByte "/" g = false /\
    ParseWorkspaceMember (u +:+ "#" +:+ f) =
    Return (TrimSpace g, TrimSpace f, TrimSpace d, None).
Proof.
  intros Hp Hu Hf.
  change ("#" +:+ f) with (String "#" f) in *.
  destruct (LastIndex_present u "/" (prefixed_has_slash _ _ Hp Hu))
    as (d & g & Hdg & Hg & Hi).
  exists d, g. split; [exact Hdg|]. split; [exact Hg|].
  unfold ParseWorkspaceMember. rewrite Hp. clear Hp.
  rewrite (SplitN_2_cut _ _ _ Hu). cbn [length Nat.eqb negb index lookup list_lookup obind].
  rewrite (SplitN_2_whole _ _ Hf). cbn [length Nat.eqb].
  rewrite Hi. subst u. rewrite sliceTo_app. cbn [obind].
  rewrite sliceFrom_after. reflexivity.
Qed.

Lemma ParseWorkspaceMember_legacy (n v url : string) :
  HasPrefix (n +:+ " " +:+ v +:+ " (" +:+ url +:+ ")") "path+file://" = false ->
  hasByte " " n = false -> hasByte " " v = false ->
  ParseWorkspaceMember (n +:+ " " +:+ v +:+ " (" +:+ url +:+ ")") =
  Return (TrimSpace n, TrimSpace v, url, None).
Proof.
  intros Hp Hn Hv. unfold ParseWorkspaceMember. rewrite Hp.
  change (" " +:+ v +:+ " (" +:+ url +:+ ")")
    with (String " " (v +:+ String " " (String "(" (url +:+ ")")))).
  rewrite (SplitN_3_cut _ _ _ _ Hn Hv).
  cbn [length Nat.eqb negb index lookup list_lookup obind].
  rewrite TrimPrefix_app, TrimSuffix_app. reflexivity.
Qed.

(** The parser never panics: its indices and slice bounds are in range. *)
Lemma ParseWorkspaceMember_returns (s : string) :
  exists r, ParseWorkspaceMember s = Return r.
Proof.
  unfold ParseWorkspaceMember.
  destruct (HasPrefix s "path+file://") eqn:Hp.
  - destruct (SplitN s "#" 2) as [|half0 [|half1 [|? ?]]] eqn:Hs;
      cbn [length Nat.eqb negb]; eauto.
    apply SplitN_2_inv in Hs as [-> Hu].
    cbn [index lookup list_lookup obind].
    destruct (SplitN half1 "@" 2) as [|o0 [|o1 [|? ?]]] eqn:Ho;
      cbn [length Nat.eqb index lookup list_lookup obind]; eauto.
    all: destruct (LastIndex_present half0 "/" (prefixed_has_slash _ _ Hp Hu))
           as (d & g & Hdg & Hg & Hi);
         rewrite Hi; subst half0; rewrite sliceTo_app; cbn [obind];
         rewrite sliceFrom_after; eauto.
  - destruct (SplitN s " " 3) as [|p0 [|p1 [|p2 [|? ?]]]];
      cbn [length Nat.eqb negb index lookup list_lookup obind]; eauto.
Qed.

(** C1, as amended: a string with the prefix ["path+file://"] and no ['#'],
    or without the prefix and with fewer than three space-separated fields,
    makes [ParseWorkspaceMember] return an error together with three empty
    strings.  (A string without the prefix and with more than three fields is
    accepted: the third piece of [SplitN] takes the remainder.) *)
Theorem ParseWorkspaceMember_malformed (s : string) :
  (HasPrefix s "path+file://" = true /\ hasByte "#" s = false) \/
  (HasPrefix s "path+file://" = false /\ (length (Split s " ") < 3)%nat) ->
  exists err, ParseWorkspaceMember s = Return ("", "", "", Some err).
Proof.
  intros [[Hp Hh]|[Hp Hl]]; unfold ParseWorkspaceMember; rewrite Hp.
  - rewrite (SplitN_2_whole _ _ Hh). cbn [length Nat.eqb negb]. eauto.
  - rewrite length_Split in Hl.
    assert (Hne : (length (SplitN s " " 3) =? 3)%nat = false).
    { apply Nat.eqb_neq. rewrite length_SplitN. lia. }
    rewrite Hne. cbn [negb]. eauto.
Qed.

Lemma ParseWorkspaceMember_malformed_witness :
  ((HasPrefix "name 1.0" "path+file://" = true /\ hasByte "#" "name 1.0" = false) \/
   (HasPrefix "name 1.0" "path+file://" = false /\
    (length (Split "name 1.0" " ") < 3)%nat)) /\
  exists err, ParseWorkspaceMember "name 1.0" = Return ("", "", "", Some err).
Proof.
  assert (H : (HasPrefix "name 1.0" "path+file://" = true /\
               hasByte "#" "name 1.0" = false) \/
              (HasPrefix "name 1.0" "path+file://" = false /\
               (length (Split "name 1.0" " ") < 3)%nat)).
  { right. split; [reflexivity|vm_compute; lia]. }
  split; [exact H|]. exact (ParseWorkspaceMember_malformed "name 1.0" H).
Defined.

(** C1 as stated fails: four space-separated fields are not exactly three,
    yet the parser returns a result and no error. *)
Lemma ParseWorkspaceMember_four_fields :
  ~ (forall s : string,
       (HasPrefix s "path+file://" = true /\ hasByte "#" s = false) \/
       (HasPrefix s "path+file://" = false /\ length (Split s " ") <> 3%nat) ->
       exists err, ParseWorkspaceMember s = Return ("", "", "", Some err)).
Proof.
  intros H. destruct (H "a b c d") as [err Herr].
  - right. split; [reflexivity|]. vm_compute. discriminate.
  - vm_compute in Herr. discriminate.
Qed.

(** C2 at the identifier ["a 1 ( u )"]: the name and the version come back
    trimmed, the location keeps the white space inside the parentheses,
    which [TrimSpace] would have removed. *)
Theorem ParseWorkspaceMember_legacy_untrimmed :
  ParseWorkspaceMember "a 1 ( u )" = Return ("a", "1", " u ", None) /\
  TrimSpace " u " = "u".
Proof. split; reflexivity. Qed.

(** C3, as amended: on [u#f] with the prefix ["path+file://"], where [u] has
    no ['#']: when [f] is [n@v] with no ['@'] in [n], the parser returns
    [n], [v] and [u]; when [f] has no ['@'], [u] is [d/g] with no ['/'] in
    [g], and the parser returns [g], [f] and [d]; every returned field is
    trimmed of surrounding white space.  The two identifiers of the spec
    give the stated results. *)
Theorem ParseWorkspaceMember_fragment (u f : string) :
  HasPrefix (u +:+ "#" +:+ f) "path+file://" = true ->
  hasByte "#" u = false ->
  (forall n v, f = n +:+ "@" +:+ v -> hasByte "@" n = false ->
     ParseWorkspaceMember (u +:+ "#" +:+ f) =
     Return (TrimSpace n, TrimSpace v, TrimSpace u, None)) /\
  (hasByte "@" f = false ->
     exists d g,
       u = d +:+ "/" +:+ g /\ hasByte "/" g = false /\
       ParseWorkspaceMember (u +:+ "#" +:+ f) =
       Return (TrimSpace g, TrimSpace f, TrimSpace d, None)) /\
  ParseWorkspaceMember "path+file:///home/u/ws#pkg@1.2.3" =
    Return ("pkg", "1.2.3", "path+file:///home/u/ws", None) /\
  ParseWorkspaceMember "path+file:///home/u/ws/services/example#0.4.0" =
    Return ("example", "0.4.0", "path+file:///home/u/ws/services", None).
Proof.
  intros Hp Hu. split; [|split; [|split; reflexivity]].
  - intros n v -> Hn. apply ParseWorkspaceMember_at; assumption.
  - intros Hf. apply ParseWorkspaceMember_bare; assumption.
Qed.

Lemma ParseWorkspaceMember_fragment_witness :
  ParseWorkspaceMember ("path+file:///ws" +:+ "#" +:+ " pkg @ 1.0") =
  Return ("pkg", "1.0", "path+file:///ws", None).
Proof.
  destruct (ParseWorkspaceMember_fragment "path+file:///ws" " pkg @ 1.0"
              eq_refl eq_refl) as [H _].
  exact (H " pkg " " 1.0" eq_refl eq_refl).
Defined.

(** C3 as stated fails: the fields around ['@'] are not returned as they
    stand when white space surrounds them. *)
Lemma ParseWorkspaceMember_fragment_trims :
  ~ (forall u n v : string,
       HasPrefix (u +:+ "#" +:+ n +:+ "@" +:+ v) "path+file://" = true ->
       hasByte "#" u = false -> hasByte "@" n = false ->
       ParseWorkspaceMember (u +:+ "#" +:+ n +:+ "@" +:+ v) =
       Return (n, v, u, None)).
Proof.
  intros H.
  specialize (H "path+file:///ws" " pkg " " 1.0" eq_refl eq_refl eq_refl).
  vm_compute in H. discriminate.
Qed.

(** ** The member filter *)

Lemma fold_insert_lookup (l : list string) (m : gmap string bool) (k : string) :
  fold_left (fun m f => <[TrimSpace f := true]> m) l m !! k =
  if existsb (String.eqb k) (map TrimSpace l) then Some true else m !! k.
Proof.
  revert m. induction l as [|x l IH]; intros m; [reflexivity|].
  cbn [fold_left map existsb]. rewrite IH.
  destruct (existsb (String.eqb k) (map TrimSpace l)).
  - rewrite orb_true_r. reflexivity.
  - rewrite orb_false_r. destruct (String.eqb_spec k (TrimSpace x)) as [->|Hne].
    + apply lookup_insert_eq.
    + apply lookup_insert_ne. congruence.
Qed.

(** What the filter map holds for a configuration that is not empty. *)
Lemma makeFilterMap_lookup (c : CargoRunner) (k : string) :
  CargoWorkspaceMembers c <> "" ->
  mapIndex (makeFilterMap c) k =
  existsb (String.eqb k) (map TrimSpace (Split (CargoWorkspaceMembers c) ","))
  || negb (Contains (CargoWorkspaceMembers c) ",")
     && String.eqb k (CargoWorkspaceMembers c).
Proof.
  intros Hne. unfold makeFilterMap, mapIndex.
  apply String.eqb_neq in Hne. rewrite Hne. cbn [negb].
  rewrite fold_insert_lookup.
  destruct (existsb _ _); [reflexivity|]. cbn [orb].
  destruct (Contains (CargoWorkspaceMembers c) ","); cbn [negb andb].
  - rewrite lookup_empty. reflexivity.
  - destruct (String.eqb_spec k (CargoWorkspaceMembers c)) as [->|Hk].
    + rewrite lookup_insert_eq. reflexivity.
    + rewrite lookup_insert_ne by congruence. rewrite lookup_empty. reflexivity.
Qed.

Lemma Split_nonempty (s : string) sep : Split s sep <> [].
Proof.
  intros H. apply (f_equal (@length string)) in H.
  rewrite length_Split in H. simpl in H. lia.
Qed.

Lemma makeFilterMap_size (c : CargoRunner) :
  CargoWorkspaceMembers c <> "" -> (0 < size (makeFilterMap c))%nat.
Proof.
  intros Hne.
  destruct (Split (CargoWorkspaceMembers c) ",") as [|x l] eqn:Hs;
    [exfalso; exact (Split_nonempty _ _ Hs)|].
  assert (Hl : mapIndex (makeFilterMap c) (TrimSpace x) = true).
  { rewrite (makeFilterMap_lookup c _ Hne), Hs. cbn [map existsb].
    rewrite String.eqb_refl. reflexivity. }
  destruct (size (makeFilterMap c)) eqn:Hz; [|lia].
  apply map_size_empty_inv in Hz. unfold mapIndex in Hl.
  rewrite Hz, lookup_empty in Hl. discriminate.
Qed.

Lemma makeFilterMap_empty (c : CargoRunner) :
  CargoWorkspaceMembers c = "" -> makeFilterMap c = ∅.
Proof. intros H. unfold makeFilterMap. rewrite H. reflexivity. Qed.

Lemma selected_spec (c : CargoRunner) (x : string) :
  selected (makeFilterMap c) x =
  if String.eqb (CargoWorkspaceMembers c) "" then true
  else if Contains (CargoWorkspaceMembers c) "," then
    existsb (String.eqb (TrimSpace x))
      (map TrimSpace (Split (CargoWorkspaceMembers c) ","))
  else String.eqb (TrimSpace x) (TrimSpace (CargoWorkspaceMembers c)).
Proof.
  unfold selected.
  destruct (String.eqb_spec (CargoWorkspaceMembers c) "") as [He|Hne].
  - rewrite (makeFilterMap_empty c He), map_size_empty. reflexivity.
  - pose proof (makeFilterMap_size c Hne) as Hs.
    replace (0 <? size (makeFilterMap c))%nat with true
      by (symmetry; apply Nat.ltb_lt; exact Hs).
    replace (size (makeFilterMap c) =? 0)%nat with false
      by (symmetry; apply Nat.eqb_neq; lia).
    rewrite orb_false_r. cbn [andb].
    rewrite (makeFilterMap_lookup c _ Hne).
    destruct (Contains (CargoWorkspaceMembers c) ",") eqn:Hc; cbn [negb andb].
    + apply orb_false_r.
    + rewrite Contains_byte in Hc. rewrite (Split_no_sep _ _ Hc).
      cbn [map existsb]. rewrite orb_false_r.
      destruct (String.eqb_spec (TrimSpace x) (TrimSpace (CargoWorkspaceMembers c)))
        as [Heq|Hneq]; [reflexivity|].
      cbn [orb]. apply String.eqb_neq. intros Heq. apply Hneq.
      rewrite <- Heq. symmetry. apply TrimSpace_idem.
Qed.

(** The loop of [WorkspaceMembers] keeps the locations of the selected
    names, in order, when every member parses and every kept location is a
    URL. *)
Lemma membersLoop_select (URL : Type) (url_Parse : string -> URL + error)
  (filterMap : gmap string bool) (members : list string)
  (items : list (string * URL)) (paths : list URL) :
  Forall2 (fun w item =>
             exists v p, ParseWorkspaceMember w = Return (fst item, v, p, None)
                         /\ url_Parse p = inl (snd item))
          members items ->
  membersLoop URL url_Parse filterMap members paths =
  Return (paths ++ map snd (List.filter (fun item => selected filterMap (fst item)) items),
          None).
Proof.
  intros H. revert paths. induction H as [|w item ws its (v & p & Hw & Hp) _ IH];
    intros paths.
  - cbn. rewrite app_nil_r. reflexivity.
  - cbn [membersLoop List.filter]. rewrite Hw. cbn [obind].
    destruct (selected filterMap (fst item)).
    + rewrite Hp, IH. cbn [map]. rewrite <- app_assoc. reflexivity.
    + apply IH.
Qed.

(** ** The argument synthesiser *)
Section Synthesiser.

Variable shellwords_Parse : string -> list string + error.
Variable IsTinyStack IsStaticStack : string -> bool.
Variable GOARCH : string.

Lemma filterLoop_neutral (argwords : list string) skipNext filteredArgs :
  Forall neutral filteredArgs ->
  Forall neutral (filterLoop argwords skipNext filteredArgs).
Proof.
  revert skipNext filteredArgs.
  induction argwords as [|arg rest IH]; intros skipNext acc Hacc; [exact Hacc|].
  cbn [filterLoop]. destruct skipNext; [apply IH, Hacc|].
  destruct (String.eqb arg "--root" || String.eqb arg "--color") eqn:Hb;
    [apply IH, Hacc|].
  destruct (HasPrefix arg "--root=" || HasPrefix arg "--color=") eqn:Hp;
    [apply IH, Hacc|].
  apply IH. apply Forall_app. split; [exact Hacc|].
  constructor; [|constructor].
  apply orb_false_iff in Hb as [Hb1 Hb2]. apply orb_false_iff in Hp as [Hp1 Hp2].
  unfold neutral, setsRoot, setsColor. rewrite Hb1, Hb2, Hp1, Hp2. split; reflexivity.
Qed.

Lemma filter_neutral (l : list string) :
  Forall neutral l -> List.filter setsRoot l = [] /\ List.filter setsColor l = [].
Proof.
  induction 1 as [|x l [Hr Hc] _ [IH1 IH2]]; [split; reflexivity|].
  cbn [List.filter]. rewrite Hr, Hc. split; assumption.
Qed.

Lemma setsRoot_root (d : string) :
  setsRoot ("--root=" +:+ d) = true /\ setsColor ("--root=" +:+ d) = false.
Proof.
  split; [|reflexivity]. unfold setsRoot, HasPrefix.
  rewrite prefix_app. apply orb_true_r.
Qed.

(** The tokens up to the default path: one sets the root, one the colour. *)
Lemma head_tokens (envArgs : list string) (d p : string) :
  Forall neutral envArgs ->
  let args := AddDefaultPath ((["install"] ++ envArgs) ++
                              ["--color=never"; "--root=" +:+ d]) p in
  List.filter setsRoot args = ["--root=" +:+ d] /\
  List.filter setsColor args = ["--color=never"].
Proof.
  intros Hn args. subst args. unfold AddDefaultPath.
  destruct (filter_neutral _ Hn) as [Hr Hc].
  destruct (setsRoot_root d) as [Hrd Hcd].
  assert (Hbase :
    List.filter setsRoot ((["install"] ++ envArgs) ++
                          ["--color=never"; "--root=" +:+ d]) = ["--root=" +:+ d] /\
    List.filter setsColor ((["install"] ++ envArgs) ++
                           ["--color=never"; "--root=" +:+ d]) = ["--color=never"]).
  { rewrite !List.filter_app, Hr, Hc. cbn [List.filter].
    rewrite Hrd, Hcd. split; reflexivity. }
  destruct (existsb _ _); [exact Hbase|].
  destruct Hbase as [H1 H2].
  split; rewrite List.filter_app; [rewrite H1|rewrite H2]; reflexivity.
Qed.

(** *** The default target *)

Lemma Setenv_RUSTFLAGS (v : string) (env : environ) :
  hasByte NUL v = false ->
  Setenv "RUSTFLAGS" v env = inl (<["RUSTFLAGS" := v]> env).
Proof. intros H. unfold Setenv. rewrite H. reflexivity. Qed.

(** C7: [AddDefaultTargetForTinyOrStatic] returns the arguments and leaves
    the environment as they are when the stack is neither tiny nor static,
    when a [--target] or [--target=...] token is present, or when
    [RUSTFLAGS] contains ["target-feature=+crt-static"].  Otherwise it
    appends one token: [--target=<arch>-unknown-linux-gnu] for the static
    type ["gnulibc"], setting [RUSTFLAGS] to its former value (when not
    empty) and ["-C target-feature=+crt-static"] joined by a space, and
    [--target=<arch>-unknown-linux-musl] for any other static type, with the
    environment unchanged.  [<arch>] is [BP_ARCH] when set, else the
    architecture of the runtime, with [amd64] read as [x86_64] and [arm64]
    as [aarch64].  (The GNU case assumes that [RUSTFLAGS] holds no NUL
    byte, as every value of a process environment does.) *)
Theorem AddDefaultTargetForTinyOrStatic_spec
  (args : list string) (stack staticType : string) (env : environ) :
  let run := AddDefaultTargetForTinyOrStatic IsTinyStack IsStaticStack GOARCH
               args stack staticType env in
  let rustFlags := Getenv "RUSTFLAGS" env in
  let arch := rustArch (default GOARCH (env !! "BP_ARCH")) in
  let backOff :=
    negb (IsTinyStack stack) && negb (IsStaticStack stack)
    || existsb (fun arg => String.eqb arg "--target" || HasPrefix arg "--target=")
         args
    || Contains rustFlags "target-feature=+crt-static" in
  (backOff = true -> run = (env, (args, None))) /\
  (backOff = false -> staticType <> "gnulibc" ->
   run = (env, (args ++ ["--target=" +:+ arch +:+ "-unknown-linux-musl"], None))) /\
  (backOff = false -> staticType = "gnulibc" -> hasByte NUL rustFlags = false ->
   run = (<["RUSTFLAGS" :=
             if String.eqb rustFlags "" then "-C target-feature=+crt-static"
             else rustFlags +:+ " " +:+ "-C target-feature=+crt-static"]> env,
          (args ++ ["--target=" +:+ arch +:+ "-unknown-linux-gnu"], None))).
Proof.
  intros run rustFlags arch backOff. subst run backOff.
  unfold AddDefaultTargetForTinyOrStatic.
  assert (Harch : archFromSystem GOARCH env = arch).
  { subst arch. unfold archFromSystem, rustArch, LookupEnv.
    destruct (env !! "BP_ARCH"); reflexivity. }
  rewrite Harch. fold rustFlags.
  destruct (negb (IsTinyStack stack) && negb (IsStaticStack stack)).
  { split; [reflexivity|]. split; discriminate. }
  destruct (existsb _ args).
  { split; [reflexivity|]. split; discriminate. }
  destruct (Contains rustFlags "target-feature=+crt-static").
  { split; [reflexivity|]. split; discriminate. }
  cbn [orb]. split; [discriminate|]. split.
  - intros _ Hs. apply String.eqb_neq in Hs. unfold StaticTypeGNULIBC.
    rewrite Hs. reflexivity.
  - intros _ -> Hnul.
    change (String.eqb "gnulibc" StaticTypeGNULIBC) with true. cbn iota.
    destruct rustFlags as [|a r] eqn:Hr.
    + cbn [String.length Nat.ltb Nat.leb app Join String.concat].
      rewrite Setenv_RUSTFLAGS by reflexivity. reflexivity.
    + change (0 <? String.length (String a r))%nat with true. cbn iota.
      change (Join (([] ++ [String a r]) ++ ["-C target-feature=+crt-static"]) " ")
        with (String a r +:+ " " +:+ "-C target-feature=+crt-static").
      rewrite Setenv_RUSTFLAGS; [reflexivity|].
      rewrite hasByte_app, Hnul. reflexivity.
Qed.

(** The default target adds nothing or one [--target=...] token. *)
Lemma AddDefaultTarget_shape (args : list string) (stack staticType : string)
  (env : environ) :
  hasByte NUL (Getenv "RUSTFLAGS" env) = false ->
  exists env' extra,
    AddDefaultTargetForTinyOrStatic IsTinyStack IsStaticStack GOARCH
      args stack staticType env = (env', (args ++ extra, None)) /\
    (extra = [] \/ exists t, extra = ["--target=" +:+ t]).
Proof.
  intros Hnul. unfold AddDefaultTargetForTinyOrStatic.
  destruct (negb (IsTinyStack stack) && negb (IsStaticStack stack)).
  { exists env, []. rewrite app_nil_r. auto. }
  destruct (existsb _ args).
  { exists env, []. rewrite app_nil_r. auto. }
  destruct (Contains _ "target-feature=+crt-static").
  { exists env, []. rewrite app_nil_r. auto. }
  destruct (String.eqb staticType StaticTypeGNULIBC); [|eauto 6].
  rewrite Setenv_RUSTFLAGS; [eauto 6|].
  destruct (Getenv "RUSTFLAGS" env) as [|a r] eqn:Hr; [reflexivity|].
  change (0 <? String.length (String a r))%nat with true. cbn iota.
  change (Join (([] ++ [String a r]) ++ ["-C target-feature=+crt-static"]) " ")
    with (String a r +:+ " " +:+ "-C target-feature=+crt-static").
  rewrite hasByte_app, Hnul. reflexivity.
Qed.

(** C5: when the operator's argument string tokenizes, [BuildArgs] returns
    an argument list in which exactly one token sets the root, the appended
    [--root=<destination>], and exactly one sets the colour, the appended
    [--color=never], whatever the operator supplied; a bare [--root] or
    [--color] is dropped together with the token that follows it.
    ([RUSTFLAGS] is assumed free of NUL bytes, as in every process
    environment, so that setting it cannot fail.) *)
Theorem BuildArgs_root_color (c : CargoRunner) (destLayer : Layer)
  (defaultMemberPath : string) (env : environ) (argwords : list string) :
  shellwords_Parse (CargoInstallArgs c) = inl argwords ->
  hasByte NUL (Getenv "RUSTFLAGS" env) = false ->
  (exists env' args,
     BuildArgs shellwords_Parse IsTinyStack IsStaticStack GOARCH
       c destLayer defaultMemberPath env = (env', (args, None)) /\
     List.filter setsRoot args = ["--root=" +:+ Path destLayer] /\
     List.filter setsColor args = ["--color=never"] /\
     countTokens setsRoot args = 1%nat /\ countTokens setsColor args = 1%nat) /\
  (forall value rest filteredArgs,
     filterLoop ("--root" :: value :: rest) false filteredArgs =
       filterLoop rest false filteredArgs /\
     filterLoop ("--color" :: value :: rest) false filteredArgs =
       filterLoop rest false filteredArgs).
Proof.
  intros Hparse Hnul. split; [|split; reflexivity].
  unfold BuildArgs, FilterInstallArgs. rewrite Hparse.
  set (envArgs := filterLoop argwords false []).
  assert (Hn : Forall neutral envArgs) by (apply filterLoop_neutral; constructor).
  destruct (head_tokens envArgs (Path destLayer) defaultMemberPath Hn) as [Hr Hc].
  set (args := AddDefaultPath _ _) in *.
  destruct (AddDefaultTarget_shape args (Stack c) (StaticType c) env Hnul)
    as (env' & extra & -> & Hextra).
  exists env', (args ++ extra).
  assert (He : List.filter setsRoot extra = [] /\ List.filter setsColor extra = []).
  { destruct Hextra as [->|[t ->]]; split; reflexivity. }
  destruct He as [He1 He2].
  assert (H1 : List.filter setsRoot (args ++ extra) = ["--root=" +:+ Path destLayer])
    by (rewrite List.filter_app, Hr, He1; reflexivity).
  assert (H2 : List.filter setsColor (args ++ extra) = ["--color=never"])
    by (rewrite List.filter_app, Hc, He2; reflexivity).
  unfold countTokens. rewrite H1, H2. auto.
Qed.

(** C6: for the argument string ["--release --root=/old"], tokenized into
    [--release] and [--root=/old], a stack that is neither tiny nor static,
    the destination ["/dest"] and the default member path ["."],
    [BuildArgs] returns [install], [--release], [--color=never],
    [--root=/dest], [--path=.], in this order, and leaves the environment
    as it is. *)
Theorem BuildArgs_example (c : CargoRunner) (env : environ) :
  CargoInstallArgs c = "--release --root=/old" ->
  shellwords_Parse "--release --root=/old" = inl ["--release"; "--root=/old"] ->
  IsTinyStack (Stack c) = false -> IsStaticStack (Stack c) = false ->
  BuildArgs shellwords_Parse IsTinyStack IsStaticStack GOARCH
    c {| Path := "/dest" |} "." env =
  (env, (["install"; "--release"; "--color=never"; "--root=/dest"; "--path=."],
         None)).
Proof.
  intros Hargs Hparse Htiny Hstatic.
  unfold BuildArgs, FilterInstallArgs. rewrite Hargs, Hparse.
  unfold AddDefaultTargetForTinyOrStatic. rewrite Htiny, Hstatic. reflexivity.
Qed.

End Synthesiser.

Lemma AddDefaultTargetForTinyOrStatic_spec_witness :
  AddDefaultTargetForTinyOrStatic libpakIsTinyStack libpakIsStaticStack "amd64"
    ["install"] "io.buildpacks.stacks.jammy.static" "gnulibc"
    {["RUSTFLAGS" := "-C opt-level=3"]} =
  (<["RUSTFLAGS" := "-C opt-level=3 -C target-feature=+crt-static"]>
     {["RUSTFLAGS" := "-C opt-level=3"]},
   (["install"; "--target=x86_64-unknown-linux-gnu"], None)).
Proof.
  exact (proj2 (proj2 (AddDefaultTargetForTinyOrStatic_spec
                         libpakIsTinyStack libpakIsStaticStack "amd64"
                         ["install"] "io.buildpacks.stacks.jammy.static" "gnulibc"
                         {["RUSTFLAGS" := "-C opt-level=3"]}))
           eq_refl eq_refl eq_refl).
Defined.

Lemma BuildArgs_root_color_witness :
  exists env' args,
    BuildArgs plainWords libpakIsTinyStack libpakIsStaticStack "amd64"
      (sampleRunner "" "--root /x --color=auto --release --color" "" "")
      {| Path := "/dest" |} "." ∅ = (env', (args, None)) /\
    List.filter setsRoot args = ["--root=/dest"] /\
    List.filter setsColor args = ["--color=never"] /\
    countTokens setsRoot args = 1%nat /\ countTokens setsColor args = 1%nat.
Proof.
  exact (proj1 (BuildArgs_root_color plainWords libpakIsTinyStack
                  libpakIsStaticStack "amd64"
                  (sampleRunner "" "--root /x --color=auto --release --color" "" "")
                  {| Path := "/dest" |} "." ∅
                  ["--root"; "/x"; "--color=auto"; "--release"; "--color"]
                  eq_refl eq_refl)).
Defined.

Lemma BuildArgs_example_witness :
  BuildArgs plainWords libpakIsTinyStack libpakIsStaticStack "amd64"
    (sampleRunner "" "--release --root=/old" "io.buildpacks.stacks.jammy" "")
    {| Path := "/dest" |} "." ∅ =
  (∅, (["install"; "--release"; "--color=never"; "--root=/dest"; "--path=."],
       None)).
Proof.
  exact (BuildArgs_example plainWords libpakIsTinyStack libpakIsStaticStack
           "amd64"
           (sampleRunner "" "--release --root=/old" "io.buildpacks.stacks.jammy" "")
           ∅ eq_refl eq_refl eq_refl eq_refl).
Defined.

(** ** The search path *)

Lemma SplitN_cons_other (x sep : ascii) (r : string) n :
  Ascii.eqb x sep = false ->
  SplitN (String x r) sep (S n) =
  match SplitN r sep (S n) with
  | h :: t => String x h :: t
  | [] => []
  end.
Proof.
  intros Hx. destruct n as [|n]; [reflexivity|].
  rewrite !SplitN_S_S. cbn [cut]. rewrite Hx.
  destruct (cut r sep) as [[a b]|]; reflexivity.
Qed.

(** The last entry of a list that ends with a separator and an entry. *)
Lemma Split_app_last (a b : string) sep :
  hasByte sep b = false ->
  Split (a +:+ String sep b) sep = Split a sep ++ [b].
Proof.
  intros Hb. induction a as [|x a IH].
  - change ("" +:+ String sep b) with (String sep b). unfold Split.
    cbn [Count]. rewrite Ascii.eqb_refl, (Count_0 _ _ Hb).
    cbn [Nat.add]. rewrite SplitN_S_S. cbn [cut]. rewrite Ascii.eqb_refl.
    reflexivity.
  - rewrite str_app_cons. unfold Split in *. cbn [Count].
    destruct (Ascii.eqb x sep) eqn:Hx.
    + cbn [Nat.add]. rewrite !Nat.add_1_r in *. rewrite !SplitN_S_S. cbn [cut].
      rewrite Hx, IH. reflexivity.
    + cbn [Nat.add]. rewrite !Nat.add_1_r in *.
      rewrite !(SplitN_cons_other _ _ _ _ Hx), IH.
      destruct (SplitN a sep (S (Count a sep))) eqn:Hs; [|reflexivity].
      apply (f_equal (@length string)) in Hs. rewrite length_SplitN in Hs.
      cbn [length] in Hs. lia.
Qed.

Section SearchPath.

Variable shellwords_Parse : string -> list string + error.
Variable IsTinyStack IsStaticStack : string -> bool.
Variable GOARCH : string.
Variable ReadDir_fails RemoveAll_fails : list string -> option error.

(** The default target leaves every variable but [RUSTFLAGS] alone. *)
Lemma AddDefaultTarget_other_vars (args : list string) (stack staticType : string)
  (env : environ) (key : string) :
  key <> "RUSTFLAGS" ->
  fst (AddDefaultTargetForTinyOrStatic IsTinyStack IsStaticStack GOARCH
         args stack staticType env) !! key = env !! key.
Proof.
  intros Hk. unfold AddDefaultTargetForTinyOrStatic.
  repeat match goal with
         | |- context [if ?b then _ else _] => destruct b
         end; try reflexivity.
  all: unfold Setenv; destruct (_ || _); [reflexivity|].
  all: cbn [fst]; apply lookup_insert_ne; congruence.
Qed.

Lemma BuildArgs_other_vars (c : CargoRunner) (destLayer : Layer)
  (defaultMemberPath : string) (env : environ) (key : string) :
  key <> "RUSTFLAGS" ->
  fst (BuildArgs shellwords_Parse IsTinyStack IsStaticStack GOARCH
         c destLayer defaultMemberPath env) !! key = env !! key.
Proof.
  intros Hk. unfold BuildArgs.
  destruct (FilterInstallArgs _ _) as [envArgs [err|]]; [reflexivity|].
  match goal with
  | |- context [AddDefaultTargetForTinyOrStatic ?t ?s ?g ?a ?st ?ty ?e] =>
      pose proof (AddDefaultTarget_other_vars a st ty e key Hk) as H;
      destruct (AddDefaultTargetForTinyOrStatic t s g a st ty e)
        as [env' [args' [err|]]]
  end; exact H.
Qed.

Lemma refreshPath_spec (destLayer : Layer) (env env' : environ) :
  refreshPath destLayer env = (env', None) ->
  Getenv "PATH" env' =
  if negb (String.eqb (Getenv "PATH" env) "") &&
     negb (Contains (Getenv "PATH" env) (Path destLayer))
  then Getenv "PATH" env +:+ ":" +:+ GoFilepath.Join [Path destLayer; "bin"]
  else Getenv "PATH" env.
Proof.
  unfold refreshPath.
  destruct (negb _ && negb _) eqn:Hc; [|intros [= <-]; reflexivity].
  unfold Setenv. destruct (_ || _); [discriminate|]. intros [= <-].
  unfold Getenv at 1. rewrite lookup_insert_eq. cbn [default].
  unfold AppendToEnvVar, LookupEnv, Getenv in *.
  destruct (env !! "PATH") as [v|]; [reflexivity|].
  cbn [default] in Hc. discriminate.
Qed.

(** C8, as amended: when [InstallMember] reaches the launch of the install
    command, the search path in the environment of that launch is the
    initial one followed by [":"] and the bin directory of the layer if the
    initial search path is not empty and does not contain the path of the
    layer as a substring, and the initial one otherwise.  In the first case
    the bin directory is the last entry of the search path, provided it has
    no [':'].  The command is launched in that environment. *)
Theorem InstallMember_search_path (c : CargoRunner) (memberPath srcDir : string)
  (destLayer : Layer) (w : World) (env' : environ) (args : list string) :
  prepareInstall shellwords_Parse IsTinyStack IsStaticStack GOARCH
    c memberPath destLayer (environ_of w) = (env', (args, None)) ->
  let path := Getenv "PATH" (environ_of w) in
  let bin := GoFilepath.Join [Path destLayer; "bin"] in
  let appends := negb (String.eqb path "") && negb (Contains path (Path destLayer)) in
  Getenv "PATH" env' = (if appends then path +:+ ":" +:+ bin else path) /\
  (appends = true -> hasByte ":" bin = false ->
   last (GoFilepath.SplitList (Getenv "PATH" env')) = Some bin) /\
  InstallMember shellwords_Parse IsTinyStack IsStaticStack GOARCH
    ReadDir_fails RemoveAll_fails c memberPath srcDir destLayer w =
  finishInstall ReadDir_fails RemoveAll_fails
    (Executor c
       {| Command := "cargo"; Args := args; Dir := srcDir;
          Stdout := InfoWriter; Stderr := InfoWriter |}
       {| environ_of := env'; home_of := home_of w |}).
Proof.
  intros Hprep path bin appends.
  assert (Hpath : Getenv "PATH" env' = if appends then path +:+ ":" +:+ bin else path).
  { unfold prepareInstall in Hprep.
    destruct (refreshPath destLayer (environ_of w)) as [env1 [err|]] eqn:Hr;
      [discriminate|].
    apply refreshPath_spec in Hr. fold path bin appends in Hr. rewrite <- Hr.
    pose proof (BuildArgs_other_vars c destLayer memberPath env1 "PATH") as Hb.
    destruct (BuildArgs _ _ _ _ c destLayer memberPath env1)
      as [env2 [args2 [err|]]]; [discriminate|].
    injection Hprep as <- _. cbn [fst] in Hb.
    unfold Getenv. rewrite Hb by discriminate. reflexivity. }
  split; [exact Hpath|]. split.
  - intros Ha Hbin. rewrite Hpath, Ha. unfold GoFilepath.SplitList.
    destruct (String.eqb_spec (path +:+ ":" +:+ bin) "") as [He|_].
    { destruct path; discriminate. }
    change (":" +:+ bin) with (String ":" bin).
    rewrite (Split_app_last _ _ _ Hbin). apply last_snoc.
  - unfold InstallMember. rewrite Hprep. reflexivity.
Qed.

End SearchPath.

Lemma InstallMember_search_path_witness :
  Getenv "PATH"
    (fst (prepareInstall plainWords libpakIsTinyStack libpakIsStaticStack "amd64"
            (sampleRunner "" "" "" "") "." {| Path := "/layers/cargo" |}
            {["PATH" := "/usr/bin"]})) =
  "/usr/bin:/layers/cargo/bin" /\
  last (GoFilepath.SplitList
          (Getenv "PATH"
             (fst (prepareInstall plainWords libpakIsTinyStack
                     libpakIsStaticStack "amd64"
                     (sampleRunner "" "" "" "") "." {| Path := "/layers/cargo" |}
                     {["PATH" := "/usr/bin"]})))) =
  Some "/layers/cargo/bin".
Proof.
  pose proof (InstallMember_search_path plainWords libpakIsTinyStack
                libpakIsStaticStack "amd64" noFailure noFailure
                (sampleRunner "" "" "" "") "." "/src" {| Path := "/layers/cargo" |}
                {| environ_of := {["PATH" := "/usr/bin"]}; home_of := None |}
                _ _ eq_refl) as (H1 & H2 & _).
  split; [exact H1|exact (H2 eq_refl eq_refl)].
Defined.

(** C8 as stated fails: with an empty search path nothing is appended, and
    the bin directory of the layer is not in the search path when the
    command is launched. *)
Lemma InstallMember_empty_search_path :
  ~ (forall (destLayer : Layer) (env env' : environ) (args : list string),
       prepareInstall plainWords libpakIsTinyStack libpakIsStaticStack "amd64"
         (sampleRunner "" "" "" "") "." destLayer env = (env', (args, None)) ->
       In (GoFilepath.Join [Path destLayer; "bin"])
          (GoFilepath.SplitList (Getenv "PATH" env'))).
Proof.
  intros H.
  exact (H {| Path := "/layers/cargo" |} ∅ _ _ eq_refl).
Qed.

(** Nor is it appended when the path of the layer merely occurs inside an
    entry of the search path. *)
Example InstallMember_substring_search_path :
  let env' :=
    fst (prepareInstall plainWords libpakIsTinyStack libpakIsStaticStack "amd64"
           (sampleRunner "" "" "" "") "." {| Path := "/layers/cargo" |}
           {["PATH" := "/layers/cargo-tools/bin"]}) in
  Getenv "PATH" env' = "/layers/cargo-tools/bin" /\
  ~ In "/layers/cargo/bin" (GoFilepath.SplitList (Getenv "PATH" env')).
Proof.
  split; [reflexivity|]. vm_compute. intros [H|[]]. discriminate.
Qed.

(** ** The versions of the tools *)

Lemma SplitN_3_second (s : string) :
  index (SplitN s " " 3) 1 =
  match cut s " " with
  | None => Panic
  | Some (_, b) =>
      Return (match cut b " " with
              | None => b
              | Some (v, _) => v
              end)
  end.
Proof.
  rewrite SplitN_S_S. destruct (cut s " ") as [[a b]|]; [|reflexivity].
  rewrite SplitN_S_S. destruct (cut b " ") as [[v r]|]; reflexivity.
Qed.

Lemma index_1_length {A} (l : list A) :
  (exists v, index l 1 = Return v) <-> (2 <= length l)%nat.
Proof.
  unfold index. destruct l as [|a [|b l]]; cbn.
  - split; [intros [v H]; discriminate|lia].
  - split; [intros [v H]; discriminate|lia].
  - split; [lia|eauto].
Qed.

Lemma list_ascii_app (a b : string) :
  list_ascii_of_string (a +:+ b) =
  list_ascii_of_string a ++ list_ascii_of_string b.
Proof.
  induction a as [|x a IH]; [reflexivity|].
  rewrite str_app_cons. cbn [list_ascii_of_string]. rewrite IH. reflexivity.
Qed.

Lemma TrimSpace_bytes (s : string) :
  list_ascii_of_string (TrimSpace s) = trimmed (list_ascii_of_string s).
Proof. apply list_ascii_of_string_of_list_ascii. Qed.

Lemma trimmed_no_trailing (l : list ascii) :
  stripOne (map (@rev ascii) whiteSpace) (rev (trimmed l)) = None.
Proof.
  unfold trimmed, trimRight. rewrite rev_involutive.
  apply trimLeft_done, rev_whiteSpace_nonempty.
Qed.

(** A trimmed string neither starts nor ends with a space. *)
Lemma TrimSpace_first (s r : string) : TrimSpace s <> String " " r.
Proof.
  intros H. pose proof (trimmed_no_leading (list_ascii_of_string s)) as Hn.
  rewrite <- TrimSpace_bytes, H in Hn. discriminate.
Qed.

Lemma TrimSpace_last (s r : string) : TrimSpace s <> r +:+ " ".
Proof.
  intros H. pose proof (trimmed_no_trailing (list_ascii_of_string s)) as Hn.
  rewrite <- TrimSpace_bytes, H, list_ascii_app, rev_app_distr in Hn.
  discriminate.
Qed.

(** A trimmed output with a space has text on both sides of the first. *)
Lemma TrimSpace_two_fields (s : string) :
  hasByte " " (TrimSpace s) = true ->
  exists a b, TrimSpace s = a +:+ " " +:+ b /\ a <> "" /\ b <> "" /\
              hasByte " " a = false.
Proof.
  intros H. destruct (cut_is_Some _ _ H) as (a & b & Hc).
  apply cut_Some in Hc as [He Ha]. exists a, b.
  split; [exact He|]. split; [|split; [|exact Ha]].
  - intros ->. exact (TrimSpace_first _ _ He).
  - intros ->. exact (TrimSpace_last _ _ He).
Qed.

(** C10: when the command succeeds, [CargoVersion] and [RustVersion] index
    the second piece of the trimmed output split at spaces.  If the trimmed
    output has no space (the empty output, for one), the call panics: it
    returns neither a version nor an error.  It returns, with a version and
    no error, exactly when the trimmed output has a space, that is, when
    it splits into at least two space-separated fields; the text before the
    first space and the text after it are then not empty. *)
Theorem versions_partial (c : CargoRunner) (w : World) :
  let cargo := Executor c {| Command := "cargo"; Args := ["version"]; Dir := "";
                             Stdout := Buffer 0; Stderr := Buffer 0 |} w in
  let rustc := Executor c {| Command := "rustc"; Args := ["--version"]; Dir := "";
                             Stdout := Buffer 0; Stderr := Buffer 0 |} w in
  (failure cargo = None ->
   let out := TrimSpace (buffers cargo 0%nat) in
   (hasByte " " out = false -> snd (CargoVersion c w) = Panic) /\
   (hasByte " " out = true ->
    exists v, snd (CargoVersion c w) = Return (v, None)) /\
   ((exists r, snd (CargoVersion c w) = Return r) <->
    (2 <= length (Split out " "))%nat) /\
   ((exists r, snd (CargoVersion c w) = Return r) ->
    exists a b, out = a +:+ " " +:+ b /\ a <> "" /\ b <> "" /\
                hasByte " " a = false)) /\
  (failure rustc = None ->
   let out := TrimSpace (buffers rustc 0%nat) in
   (hasByte " " out = false -> snd (RustVersion c w) = Panic) /\
   (hasByte " " out = true ->
    exists v, snd (RustVersion c w) = Return (v, None)) /\
   ((exists r, snd (RustVersion c w) = Return r) <->
    (2 <= length (Split out " "))%nat) /\
   ((exists r, snd (RustVersion c w) = Return r) ->
    exists a b, out = a +:+ " " +:+ b /\ a <> "" /\ b <> "" /\
                hasByte " " a = false)).
Proof.
  intros cargo rustc.
  assert (Hfields : forall s : string,
            (2 <= length (Split (TrimSpace s) " "))%nat ->
            exists a b, TrimSpace s = a +:+ " " +:+ b /\ a <> "" /\ b <> "" /\
                        hasByte " " a = false).
  { intros s Hl. apply TrimSpace_two_fields.
    destruct (hasByte " " (TrimSpace s)) eqn:H; [reflexivity|].
    rewrite (Split_no_sep _ _ H) in Hl. cbn [length] in Hl. lia. }
  split.
  - intros Hok out. unfold CargoVersion. fold cargo. rewrite Hok.
    cbn [snd]. fold out.
    assert (Hiff : (exists r, (do v <- index (SplitN out " " 3) 1;
                               Return (v, None (A:=error))) = Return r)
                   <-> (2 <= length (Split out " "))%nat).
    { rewrite length_Split. rewrite SplitN_3_second.
      destruct (hasByte " " out) eqn:H.
      * destruct (cut_is_Some _ _ H) as (a & b & ->). cbn [obind].
        pose proof (Count_pos _ _ H). split; [lia|eauto].
      * rewrite (cut_None _ _ H), (Count_0 _ _ H). cbn [obind].
        split; [intros [r Hr]; discriminate|lia]. }
    split; [|split; [|split]].
    + intros H. rewrite SplitN_3_second, (cut_None _ _ H). reflexivity.
    + intros H. rewrite SplitN_3_second.
      destruct (cut_is_Some _ _ H) as (a & b & ->). cbn [obind]. eauto.
    + exact Hiff.
    + intros Hr. apply Hfields, Hiff, Hr.
  - intros Hok out. unfold RustVersion. fold rustc. rewrite Hok.
    cbn [snd]. fold out.
    assert (Hlen : forall l : list string,
              (exists r, (do v <- index l 1; Return (v, None (A:=error))) = Return r)
              <-> (2 <= length l)%nat).
    { intros l. rewrite <- index_1_length. unfold index.
      destruct (l !! 1%nat); cbn [obind]; split; intros [r Hr]; eauto; discriminate. }
    split; [|split; [|split]].
    + intros H. rewrite (Split_no_sep _ _ H). reflexivity.
    + intros H. pose proof (Count_pos _ _ H) as Hc.
      destruct (proj2 (Hlen (Split out " "))) as [r Hr];
        [rewrite length_Split; lia|].
      unfold index, obind in *. destruct (Split out " " !! 1%nat); [eauto|discriminate].
    + apply Hlen.
    + intros Hr. apply Hfields, Hlen, Hr.
Qed.

Lemma versions_partial_witness :
  snd (CargoVersion (sampleRunner "" "" "" "")
         {| environ_of := ∅; home_of := None |}) = Panic /\
  snd (RustVersion (sampleRunner "" "" "" "")
         {| environ_of := ∅; home_of := None |}) = Panic.
Proof.
  destruct (versions_partial (sampleRunner "" "" "" "")
              {| environ_of := ∅; home_of := None |}) as [Hc Hr].
  split.
  - exact (proj1 (Hc eq_refl) eq_refl).
  - exact (proj1 (Hr eq_refl) eq_refl).
Defined.

Example CargoVersion_example :
  snd (CargoVersion
         {| CargoHome := ""; CargoWorkspaceMembers := ""; CargoInstallArgs := "";
            Executor := printingExecutor "cargo 1.77.0 (3fe68eabf 2024-02-29)
";
            Stack := ""; StaticType := "" |}
         {| environ_of := ∅; home_of := None |}) =
  Return ("1.77.0", None).
Proof. reflexivity. Qed.

(** ** The cache pruner *)
Section Pruner.

Variable ReadDir_fails RemoveAll_fails : list string -> option error.

Abbreviation prune := (pruneLoop RemoveAll_fails).
Abbreviation removed := (removedNames RemoveAll_fails).
Abbreviation ending := (loopError RemoveAll_fails).

Lemma filter_all {A} (l : list A) : List.filter (fun _ => true) l = l.
Proof. induction l as [|x l IH]; [reflexivity|]. simpl. rewrite IH. reflexivity. Qed.

Lemma filter_twice {A} (p q : A -> bool) (l : list A) :
  List.filter p (List.filter q l) = List.filter (fun x => q x && p x) l.
Proof.
  induction l as [|x l IH]; [reflexivity|]. cbn [List.filter].
  destruct (q x); cbn [List.filter andb]; [destruct (p x)|]; rewrite IH; reflexivity.
Qed.

Lemma listing_filter (p : string -> bool) (cs : list (string * node)) :
  listing (List.filter (fun e => p (fst e)) cs) =
  List.filter (fun f => p (fst f)) (listing cs).
Proof.
  induction cs as [|e cs IH]; [reflexivity|]. cbn [List.filter listing map fst].
  destruct (p (fst e)); cbn [map]; fold (listing cs); rewrite <- IH; reflexivity.
Qed.

(** A loop leaves the entries whose names it did not remove. *)
Lemma pruneLoop_char keep path files (cs : list (string * node)) :
  prune keep path files cs =
  (List.filter (fun e => negb (named (removed keep path files) (fst e))) cs,
   ending keep path files).
Proof.
  revert cs. induction files as [|f rest IH]; intros cs.
  - cbn. rewrite filter_all. reflexivity.
  - cbn [pruneLoop removedNames loopError].
    destruct (keep (fst f) (snd f)); [apply IH|].
    destruct (RemoveAll_fails (path ++ [fst f])).
    + cbn. rewrite filter_all. reflexivity.
    + rewrite IH. unfold removeChild. rewrite filter_twice. f_equal.
      apply List.filter_ext. intros e. cbn [named existsb].
      rewrite negb_orb. reflexivity.
Qed.

Lemma removed_not_failing keep path files n :
  named (removed keep path files) n = true -> RemoveAll_fails (path ++ [n]) = None.
Proof.
  induction files as [|f rest IH]; [discriminate|]. cbn [removedNames].
  destruct (keep (fst f) (snd f)); [exact IH|].
  destruct (RemoveAll_fails (path ++ [fst f])) eqn:Hf; [discriminate|].
  cbn [named existsb]. intros H. apply orb_true_iff in H as [H|H]; [|exact (IH H)].
  apply String.eqb_eq in H as ->. exact Hf.
Qed.

(** A listing without the names of [names], which hold all that the loop
    removes and nothing that fails, has nothing left to remove and ends
    the loop in the same way. *)
Lemma second_pass keep path files (names : list string) :
  (forall n, named (removed keep path files) n = true -> named names n = true) ->
  (forall n, named names n = true -> RemoveAll_fails (path ++ [n]) = None) ->
  removed keep path (List.filter (fun f => negb (named names (fst f))) files) = [] /\
  ending keep path (List.filter (fun f => negb (named names (fst f))) files) =
  ending keep path files.
Proof.
  intros Hsub Hok. induction files as [|f rest IH]; [split; reflexivity|].
  cbn [List.filter]. cbn [removedNames loopError] in *.
  destruct (keep (fst f) (snd f)) eqn:Hk.
  - destruct (named names (fst f)); cbn [negb]; [exact (IH Hsub)|].
    cbn [removedNames loopError]. rewrite Hk. exact (IH Hsub).
  - destruct (RemoveAll_fails (path ++ [fst f])) as [err|] eqn:Hf.
    + destruct (named names (fst f)) eqn:Hn.
      { rewrite (Hok _ Hn) in Hf. discriminate. }
      cbn [negb removedNames loopError]. rewrite Hk, Hf. split; reflexivity.
    + assert (Hn : named names (fst f) = true).
      { apply Hsub. cbn [named existsb]. rewrite String.eqb_refl. reflexivity. }
      rewrite Hn. cbn [negb]. apply IH. intros n H. apply Hsub.
      cbn [named existsb]. fold (named (removed keep path rest) n).
      rewrite H. apply orb_true_r.
Qed.

(** After one pass over a directory, a pass over a directory with the same
    listing as the pruned one removes nothing and ends in the same way. *)
Lemma pruneLoop_again keep path (cs cs2 : list (string * node)) :
  listing cs2 = listing (fst (prune keep path (listing cs) cs)) ->
  prune keep path (listing cs2) cs2 =
  (cs2, snd (prune keep path (listing cs) cs)).
Proof.
  rewrite (pruneLoop_char keep path (listing cs) cs). cbn [fst snd].
  intros Hl. rewrite pruneLoop_char, Hl.
  rewrite (listing_filter (fun n => negb (named (removed keep path (listing cs)) n))).
  destruct (second_pass keep path (listing cs) (removed keep path (listing cs)))
    as [Hr He]; [auto|apply removed_not_failing|].
  rewrite Hr, He. cbn [named existsb negb]. rewrite filter_all. reflexivity.
Qed.

Lemma pruneLoop_idem keep path (cs : list (string * node)) :
  prune keep path (listing (fst (prune keep path (listing cs) cs)))
    (fst (prune keep path (listing cs) cs)) =
  prune keep path (listing cs) cs.
Proof.
  rewrite (pruneLoop_again keep path cs) by reflexivity.
  destruct (prune keep path (listing cs) cs); reflexivity.
Qed.

Lemma same_name_same_entry (cs : list (string * node)) (e e' : string * node) :
  List.NoDup (map fst cs) -> In e cs -> In e' cs -> fst e = fst e' -> e = e'.
Proof.
  induction cs as [|x cs IH]; [intros _ []|].
  cbn [map]. intros Hnd [->|He] [->|He'] Hn; inversion Hnd as [|? ? Hx Hnd']; subst.
  - reflexivity.
  - exfalso. apply Hx. rewrite Hn. apply List.in_map, He'.
  - exfalso. apply Hx. rewrite <- Hn. apply List.in_map, He.
  - auto.
Qed.

Lemma removed_names keep path files n :
  named (removed keep path files) n = true ->
  exists f, In f files /\ fst f = n /\ keep (fst f) (snd f) = false.
Proof.
  induction files as [|f rest IH]; [discriminate|]. cbn [removedNames].
  destruct (keep (fst f) (snd f)) eqn:Hk.
  - intros H. destruct (IH H) as (g & Hg & Hn & Hkg). exists g. cbn. auto.
  - destruct (RemoveAll_fails (path ++ [fst f])); [discriminate|].
    cbn [named existsb]. intros H. apply orb_true_iff in H as [H|H].
    + apply String.eqb_eq in H. exists f. cbn. auto.
    + destruct (IH H) as (g & Hg & Hn & Hkg). exists g. cbn. auto.
Qed.

Lemma ending_None keep path files :
  (forall p, RemoveAll_fails p = None) -> ending keep path files = None.
Proof.
  intros Hok. induction files as [|h rest IH]; [reflexivity|]. cbn [loopError].
  rewrite Hok. destruct (keep (fst h) (snd h)); exact IH.
Qed.

Lemma removed_all keep path files f :
  (forall p, RemoveAll_fails p = None) ->
  In f files -> keep (fst f) (snd f) = false ->
  named (removed keep path files) (fst f) = true /\
  ending keep path files = None.
Proof.
  intros Hok. induction files as [|g rest IH]; [intros []|].
  cbn [removedNames loopError]. rewrite Hok. intros [->|Hin] Hk.
  - rewrite Hk. cbn [named existsb]. rewrite String.eqb_refl. split; [reflexivity|].
    apply ending_None, Hok.
  - destruct (IH Hin Hk) as [Hn He]. destruct (keep (fst g) (snd g)); [auto|].
    cbn [named existsb]. fold (named (removed keep path rest) (fst f)).
    rewrite Hn, orb_true_r. auto.
Qed.

(** When no removal fails, a loop over a directory in which names are
    unique leaves exactly the entries that [keep] retains. *)
Lemma pruneLoop_exact keep path (cs : list (string * node)) :
  (forall p, RemoveAll_fails p = None) -> List.NoDup (map fst cs) ->
  prune keep path (listing cs) cs =
  (List.filter (fun e => keep (fst e) (IsDir (snd e))) cs, None).
Proof.
  intros Hok Hnd. rewrite pruneLoop_char, (ending_None _ _ _ Hok). f_equal.
  apply List.filter_ext_in. intros e He.
  destruct (keep (fst e) (IsDir (snd e))) eqn:Hk.
  - apply negb_true_iff.
    destruct (named (removed keep path (listing cs)) (fst e)) eqn:Hn; [|reflexivity].
    apply removed_names in Hn as (f & Hf & Hfe & Hkf).
    unfold listing in Hf. apply List.in_map_iff in Hf as (e' & <- & He').
    cbn [fst snd] in Hfe, Hkf.
    rewrite (same_name_same_entry cs e' e Hnd He' He Hfe) in Hkf. congruence.
  - apply negb_false_iff.
    apply (removed_all keep path (listing cs) (fst e, IsDir (snd e)) Hok);
      [|exact Hk].
    unfold listing. apply (List.in_map (fun e => (fst e, IsDir (snd e)))), He.
Qed.

(** *** Replacing the content of an entry *)

Lemma lookupChild_cons name e (cs : list (string * node)) :
  lookupChild name (e :: cs) =
  if String.eqb (fst e) name then Some (snd e) else lookupChild name cs.
Proof. unfold lookupChild. cbn [List.find]. destruct (String.eqb (fst e) name); reflexivity. Qed.

Lemma listing_replaceChild sub sc sc' (cs : list (string * node)) :
  lookupChild sub cs = Some (dir sc) ->
  listing (replaceChild sub (dir sc') cs) = listing cs.
Proof.
  induction cs as [|e cs IH]; [discriminate|].
  rewrite lookupChild_cons. cbn [replaceChild].
  destruct (String.eqb (fst e) sub).
  - intros [= H]. cbn [listing map fst snd]. rewrite H. reflexivity.
  - intros H. cbn [listing map]. fold (listing cs).
    fold (listing (replaceChild sub (dir sc') cs)). rewrite (IH H). reflexivity.
Qed.

Lemma lookupChild_replace_same sub x y (cs : list (string * node)) :
  lookupChild sub cs = Some x ->
  lookupChild sub (replaceChild sub y cs) = Some y.
Proof.
  induction cs as [|e cs IH]; [discriminate|].
  rewrite lookupChild_cons. cbn [replaceChild].
  destruct (String.eqb (fst e) sub) eqn:He; rewrite lookupChild_cons; cbn [fst snd];
    rewrite He; [reflexivity|exact IH].
Qed.

Lemma lookupChild_replace_other a b y (cs : list (string * node)) :
  a <> b -> lookupChild a (replaceChild b y cs) = lookupChild a cs.
Proof.
  intros Hab. induction cs as [|e cs IH]; [reflexivity|].
  cbn [replaceChild]. destruct (String.eqb (fst e) b) eqn:He;
    rewrite !lookupChild_cons; cbn [fst snd].
  - apply String.eqb_eq in He.
    destruct (String.eqb_spec (fst e) a); [congruence|reflexivity].
  - rewrite IH. reflexivity.
Qed.

Lemma replaceChild_twice sub x y (cs : list (string * node)) :
  replaceChild sub y (replaceChild sub x cs) = replaceChild sub y cs.
Proof.
  induction cs as [|e cs IH]; [reflexivity|]. cbn [replaceChild].
  destruct (String.eqb (fst e) sub) eqn:He; cbn [replaceChild fst];
    rewrite He; [reflexivity|rewrite IH; reflexivity].
Qed.

Lemma replaceChild_comm a b x y (cs : list (string * node)) :
  a <> b ->
  replaceChild a x (replaceChild b y cs) = replaceChild b y (replaceChild a x cs).
Proof.
  intros Hab. induction cs as [|e cs IH]; [reflexivity|]. cbn [replaceChild].
  destruct (String.eqb (fst e) b) eqn:Hb, (String.eqb (fst e) a) eqn:Ha;
    cbn [replaceChild fst]; rewrite ?Ha, ?Hb; try reflexivity.
  - apply String.eqb_eq in Ha, Hb. congruence.
  - rewrite IH. reflexivity.
Qed.

(** *** The blocks for [registry] and [git] *)

Abbreviation sub_prune := (pruneSub ReadDir_fails RemoveAll_fails).

Lemma pruneSub_eq sub keep (cs : list (string * node)) :
  sub_prune sub keep cs =
  match ReadDir_fails [sub] with
  | Some err => (cs, Some ("unable to read directory" +:+ nl +:+ err))
  | None =>
      match lookupChild sub cs with
      | None => (cs, None)
      | Some file =>
          (cs, Some ("unable to read directory" +:+ nl +:+ "not a directory"))
      | Some (dir sc) =>
          (replaceChild sub (dir (fst (prune keep [sub] (listing sc) sc))) cs,
           snd (prune keep [sub] (listing sc) sc))
      end
  end.
Proof.
  unfold pruneSub, ReadDir. destruct (ReadDir_fails [sub]); [reflexivity|].
  destruct (lookupChild sub cs) as [[|sc]|]; try reflexivity.
  fold (listing sc). destruct (prune keep [sub] (listing sc) sc); reflexivity.
Qed.

Lemma pruneSub_listing sub keep (cs : list (string * node)) :
  listing (fst (sub_prune sub keep cs)) = listing cs.
Proof.
  rewrite pruneSub_eq. destruct (ReadDir_fails [sub]); [reflexivity|].
  destruct (lookupChild sub cs) as [[|sc]|] eqn:Hl; try reflexivity.
  cbn [fst]. apply (listing_replaceChild _ _ _ _ Hl).
Qed.

Lemma pruneSub_idem sub keep (cs : list (string * node)) :
  sub_prune sub keep (fst (sub_prune sub keep cs)) = sub_prune sub keep cs.
Proof.
  rewrite (pruneSub_eq sub keep cs).
  destruct (ReadDir_fails [sub]) eqn:Hf.
  { cbn [fst]. rewrite pruneSub_eq, Hf. reflexivity. }
  destruct (lookupChild sub cs) as [[|sc]|] eqn:Hl; cbn [fst].
  - rewrite pruneSub_eq, Hf, Hl. reflexivity.
  - rewrite pruneSub_eq, Hf, (lookupChild_replace_same _ _ _ _ Hl).
    rewrite pruneLoop_idem, replaceChild_twice. reflexivity.
  - rewrite pruneSub_eq, Hf, Hl. reflexivity.
Qed.

(** A block that changes nothing still changes nothing after the block of
    another directory. *)
Lemma pruneSub_other a b ka kb (cs : list (string * node)) :
  a <> b -> fst (sub_prune a ka cs) = cs ->
  sub_prune a ka (fst (sub_prune b kb cs)) =
  (fst (sub_prune b kb cs), snd (sub_prune a ka cs)).
Proof.
  intros Hab Hfix.
  assert (Hsame : sub_prune a ka cs = (cs, snd (sub_prune a ka cs))).
  { rewrite <- Hfix at 2. apply surjective_pairing. }
  rewrite (pruneSub_eq b kb cs).
  destruct (ReadDir_fails [b]); [exact Hsame|].
  destruct (lookupChild b cs) as [[|sc]|]; try exact Hsame.
  cbn [fst]. revert Hfix. rewrite !(pruneSub_eq a ka).
  rewrite (lookupChild_replace_other _ _ _ _ Hab).
  destruct (ReadDir_fails [a]); [reflexivity|].
  destruct (lookupChild a cs) as [[|sa]|]; try reflexivity.
  cbn [fst snd]. intros Hfix.
  rewrite (replaceChild_comm _ _ _ _ _ Hab), Hfix. reflexivity.
Qed.

(** C9: pruning the tree that a first pruning left, with nothing written in
    between, ends in the same way and leaves that tree as it is: the second
    run removes nothing.  This holds for every tree at [CargoHome] and for
    every pattern of read and removal failures, a run that a failure cut
    short included. *)
Theorem CleanCargoHomeCache_idempotent (home : option node) :
  CleanCargoHomeCache ReadDir_fails RemoveAll_fails
    (fst (CleanCargoHomeCache ReadDir_fails RemoveAll_fails home)) =
  CleanCargoHomeCache ReadDir_fails RemoveAll_fails home.
Proof.
  unfold CleanCargoHomeCache at 2 3. unfold ReadDir.
  destruct (ReadDir_fails []) as [err|] eqn:Hf.
  { cbn [fst]. unfold CleanCargoHomeCache, ReadDir. rewrite Hf. reflexivity. }
  destruct home as [[|cs]|].
  - cbn [fst]. unfold CleanCargoHomeCache, ReadDir. rewrite Hf. reflexivity.
  - fold (listing cs).
    pose proof (pruneLoop_again keepHome [] cs) as Hagain.
    destruct (prune keepHome [] (listing cs) cs) as [cs1 e1] eqn:H1.
    cbn [fst snd] in Hagain.
    destruct e1 as [err|].
    { cbn [fst]. unfold CleanCargoHomeCache, ReadDir. rewrite Hf.
      fold (listing cs1). rewrite (Hagain cs1 eq_refl). reflexivity. }
    pose proof (pruneSub_listing "registry" keepRegistry cs1) as Hl2.
    pose proof (pruneSub_idem "registry" keepRegistry cs1) as Hi2.
    destruct (sub_prune "registry" keepRegistry cs1) as [cs2 e2] eqn:H2.
    cbn [fst] in Hl2, Hi2.
    destruct e2 as [err|].
    { cbn [fst]. unfold CleanCargoHomeCache, ReadDir. rewrite Hf.
      fold (listing cs2). rewrite (Hagain cs2 Hl2), Hi2. reflexivity. }
    pose proof (pruneSub_listing "git" keepGit cs2) as Hl3.
    pose proof (pruneSub_idem "git" keepGit cs2) as Hi3.
    pose proof (pruneSub_other "registry" "git" keepRegistry keepGit cs2) as Ho.
    rewrite Hi2 in Ho. cbn [fst snd] in Ho.
    destruct (sub_prune "git" keepGit cs2) as [cs3 e3] eqn:H3.
    cbn [fst] in Hl3, Hi3, Ho |- *.
    unfold CleanCargoHomeCache, ReadDir. rewrite Hf. fold (listing cs3).
    rewrite (Hagain cs3) by congruence.
    rewrite Ho by (discriminate || reflexivity).
    rewrite Hi3. reflexivity.
  - cbn [fst]. unfold CleanCargoHomeCache, ReadDir. rewrite Hf. reflexivity.
Qed.

End Pruner.

(** On the sample home the first run keeps [bin], [registry/cache],
    [registry/index] and [git/db], and the second run changes nothing. *)
Example CleanCargoHomeCache_sample :
  CleanCargoHomeCache noFailure noFailure (Some sampleHome) =
  (Some (dir [ ("bin", dir [("cargo-audit", file)]);
               ("git", dir [("db", dir [("repo", dir [])])]);
               ("registry", dir [("cache", dir []); ("index", dir [])]) ]),
   None).
Proof. reflexivity. Qed.

(** * Further properties *)

(** ** The parser on every input *)

Lemma HasPrefix_app (u r p : string) :
  HasPrefix u p = true -> HasPrefix (u +:+ r) p = true.
Proof.
  unfold HasPrefix. intros H. apply prefix_decompose in H as [t ->].
  rewrite str_app_assoc. apply prefix_app.
Qed.

(** Every string is either rejected, with three empty fields, or accepted,
    with a trimmed name and a trimmed version. *)
Lemma ParseWorkspaceMember_cases (s : string) :
  ((if HasPrefix s "path+file://" then hasByte "#" s = false
    else (Count s " " < 2)%nat) /\
   exists err, ParseWorkspaceMember s = Return ("", "", "", Some err)) \/
  ((if HasPrefix s "path+file://" then hasByte "#" s = true
    else (2 <= Count s " ")%nat) /\
   exists n v l,
     ParseWorkspaceMember s = Return (TrimSpace n, TrimSpace v, l, None) /\
     (HasPrefix s "path+file://" = true -> exists l', l = TrimSpace l')).
Proof.
  unfold ParseWorkspaceMember.
  destruct (HasPrefix s "path+file://") eqn:Hp.
  - destruct (hasByte "#" s) eqn:Hh.
    + right. split; [reflexivity|].
      destruct (cut_is_Some _ _ Hh) as (a & b & Hc).
      apply cut_Some in Hc as [-> Ha].
      rewrite (SplitN_2_cut _ _ _ Ha).
      cbn [length Nat.eqb negb index lookup list_lookup obind].
      destruct (SplitN b "@" 2) as [|o0 [|o1 [|? ?]]] eqn:Ho;
        cbn [length Nat.eqb index lookup list_lookup obind]; [| |eauto 8|].
      all: destruct (LastIndex_present a "/" (prefixed_has_slash _ _ Hp Ha))
             as (d & g & Hdg & Hg & Hi);
           rewrite Hi; subst a; rewrite sliceTo_app; cbn [obind];
           rewrite sliceFrom_after; eauto 8.
    + left. split; [reflexivity|].
      rewrite (SplitN_2_whole _ _ Hh). cbn [length Nat.eqb negb]. eauto.
  - pose proof (length_SplitN s " " 3) as Hl.
    destruct (Nat.lt_ge_cases (Count s " ") 2) as [Hc|Hc].
    + left. split; [exact Hc|].
      replace (length (SplitN s " " 3) =? 3)%nat with false
        by (symmetry; apply Nat.eqb_neq; lia).
      cbn [negb]. eauto.
    + right. split; [exact Hc|].
      destruct (SplitN s " " 3) as [|p0 [|p1 [|p2 [|? ?]]]];
        cbn [length] in Hl; try lia.
      cbn [length Nat.eqb negb index lookup list_lookup obind].
      exists p0, p1, (TrimSuffix (TrimPrefix p2 "(") ")").
      split; [reflexivity|discriminate].
Qed.

(** X1: [ParseWorkspaceMember] never panics: on every string its indices
    and its slice bounds are in range. *)
Theorem ParseWorkspaceMember_never_panics (s : string) :
  ParseWorkspaceMember s <> Panic.
Proof.
  destruct (ParseWorkspaceMember_cases s)
    as [[_ [err ->]]|[_ (n & v & l & -> & _)]]; discriminate.
Qed.

(** X2: [ParseWorkspaceMember] accepts a string, returning fields and no
    error, exactly when the string has the prefix ["path+file://"] and a
    ['#'], or has not the prefix and has at least two spaces. *)
Theorem ParseWorkspaceMember_accepts (s : string) :
  (exists n v l, ParseWorkspaceMember s = Return (n, v, l, None)) <->
  (if HasPrefix s "path+file://" then hasByte "#" s = true
   else (2 <= Count s " ")%nat).
Proof.
  destruct (ParseWorkspaceMember_cases s)
    as [[Hbad [err Herr]]|[Hgood (n & v & l & Hok & _)]].
  - split.
    + intros (n & v & l & H). rewrite Herr in H. discriminate.
    + destruct (HasPrefix s "path+file://"); [congruence|lia].
  - split; [intros _; exact Hgood|eauto].
Qed.

(** X3: on every accepted string the returned name and version are their
    own trimmed text, so trimming them again (as line 230 does) changes
    nothing; with the prefix ["path+file://"] the location is trimmed too. *)
Theorem ParseWorkspaceMember_trimmed (s n v l : string) :
  ParseWorkspaceMember s = Return (n, v, l, None) ->
  TrimSpace n = n /\ TrimSpace v = v /\
  (HasPrefix s "path+file://" = true -> TrimSpace l = l).
Proof.
  intros H.
  destruct (ParseWorkspaceMember_cases s)
    as [[_ [err Herr]]|[_ (n' & v' & l' & Hok & Hl)]].
  - rewrite Herr in H. discriminate.
  - rewrite Hok in H. injection H as <- <- <-.
    rewrite !TrimSpace_idem. split; [reflexivity|]. split; [reflexivity|].
    intros Hp. destruct (Hl Hp) as [l0 ->]. apply TrimSpace_idem.
Qed.

Lemma ParseWorkspaceMember_trimmed_witness :
  TrimSpace "pkg" = "pkg" /\ TrimSpace "1.0" = "1.0" /\
  (HasPrefix "path+file:///ws # pkg @ 1.0 " "path+file://" = true ->
   TrimSpace "path+file:///ws" = "path+file:///ws").
Proof.
  exact (ParseWorkspaceMember_trimmed "path+file:///ws # pkg @ 1.0 "
           "pkg" "1.0" "path+file:///ws" eq_refl).
Defined.

(** X4: on a string without the prefix, of the form [n v rest] with no
    space in [n] and [v], the parser returns [n] and [v] trimmed, and as
    location [rest] without one leading ['('] and one trailing [')'], the
    spaces and the white space of [rest] kept; for [rest = (url)] it is
    [url] as it stands. *)
Theorem ParseWorkspaceMember_legacy_fields (n v rest : string) :
  HasPrefix (n +:+ " " +:+ v +:+ " " +:+ rest) "path+file://" = false ->
  hasByte " " n = false -> hasByte " " v = false ->
  ParseWorkspaceMember (n +:+ " " +:+ v +:+ " " +:+ rest) =
    Return (TrimSpace n, TrimSpace v, TrimSuffix (TrimPrefix rest "(") ")", None)
  /\ (forall url, rest = "(" +:+ url +:+ ")" ->
      ParseWorkspaceMember (n +:+ " " +:+ v +:+ " " +:+ rest) =
        Return (TrimSpace n, TrimSpace v, url, None)).
Proof.
  intros Hp Hn Hv.
  assert (H : ParseWorkspaceMember (n +:+ " " +:+ v +:+ " " +:+ rest) =
              Return (TrimSpace n, TrimSpace v,
                      TrimSuffix (TrimPrefix rest "(") ")", None)).
  { unfold ParseWorkspaceMember. rewrite Hp.
    change (" " +:+ v +:+ " " +:+ rest)
      with (String " " (v +:+ String " " rest)).
    rewrite (SplitN_3_cut _ _ _ _ Hn Hv). reflexivity. }
  split; [exact H|]. intros url ->. rewrite H.
  change ("(" +:+ url +:+ ")") with (String "(" (url +:+ ")")).
  rewrite TrimPrefix_app, TrimSuffix_app. reflexivity.
Qed.

Lemma ParseWorkspaceMember_legacy_fields_witness :
  ParseWorkspaceMember ("fn" +:+ " " +:+ "0.1.0" +:+ " " +:+ "(path+file:///a b)") =
  Return ("fn", "0.1.0", "path+file:///a b", None).
Proof.
  exact (proj2 (ParseWorkspaceMember_legacy_fields "fn" "0.1.0"
                  "(path+file:///a b)" eq_refl eq_refl eq_refl)
           "path+file:///a b" eq_refl).
Defined.

(** X5: the two encodings of one member decode alike: for a name [n]
    without space or ['@'] that does not start with the prefix, a version
    [v] without space, and a trimmed location [u] with the prefix and
    without ['#'], the identifiers [n v (u)] and [u#n@v] give the same
    result, the trimmed [n], the trimmed [v] and [u]. *)
Theorem ParseWorkspaceMember_encodings_agree (n v u : string) :
  HasPrefix u "path+file://" = true -> hasByte "#" u = false ->
  TrimSpace u = u ->
  HasPrefix n "path+file://" = false ->
  hasByte " " n = false -> hasByte "@" n = false -> hasByte " " v = false ->
  ParseWorkspaceMember (n +:+ " " +:+ v +:+ " (" +:+ u +:+ ")") =
    Return (TrimSpace n, TrimSpace v, u, None) /\
  ParseWorkspaceMember (u +:+ "#" +:+ n +:+ "@" +:+ v) =
    Return (TrimSpace n, TrimSpace v, u, None).
Proof.
  intros Hu Hh Ht Hnp Hn Ha Hv. split.
  - apply ParseWorkspaceMember_legacy; [|exact Hn|exact Hv].
    destruct (HasPrefix (n +:+ " " +:+ v +:+ " (" +:+ u +:+ ")") "path+file://")
      eqn:Hp; [|reflexivity].
    unfold HasPrefix in *.
    change (" " +:+ v +:+ " (" +:+ u +:+ ")")
      with (String " " (v +:+ " (" +:+ u +:+ ")")) in Hp.
    apply prefix_before_byte in Hp; [congruence|reflexivity|exact Hn].
  - rewrite ParseWorkspaceMember_at; [rewrite Ht; reflexivity| |exact Hh|exact Ha].
    apply HasPrefix_app, Hu.
Qed.

Lemma ParseWorkspaceMember_encodings_agree_witness :
  ParseWorkspaceMember ("fn" +:+ " " +:+ "0.1.0" +:+ " (" +:+ "path+file:///ws/fn" +:+ ")") =
    Return ("fn", "0.1.0", "path+file:///ws/fn", None) /\
  ParseWorkspaceMember ("path+file:///ws/fn" +:+ "#" +:+ "fn" +:+ "@" +:+ "0.1.0") =
    Return ("fn", "0.1.0", "path+file:///ws/fn", None).
Proof.
  exact (ParseWorkspaceMember_encodings_agree "fn" "0.1.0" "path+file:///ws/fn"
           eq_refl eq_refl eq_refl eq_refl eq_refl eq_refl eq_refl).
Defined.

(** ** The filter map and the selection *)

Lemma existsb_In (k : string) (l : list string) :
  existsb (String.eqb k) l = true <-> In k l.
Proof.
  rewrite existsb_exists. split.
  - intros (x & Hx & He). apply String.eqb_eq in He as ->. exact Hx.
  - intros H. exists k. split; [exact H|apply String.eqb_refl].
Qed.

(** X6: the filter map is empty exactly for the empty configuration; its
    keys are the trimmed comma-separated entries, and the configuration
    itself when it has no comma; every key maps to [true]. *)
Theorem makeFilterMap_entries (c : CargoRunner) :
  (makeFilterMap c = ∅ <-> CargoWorkspaceMembers c = "") /\
  (forall k b, makeFilterMap c !! k = Some b -> b = true) /\
  (forall k, is_Some (makeFilterMap c !! k) <->
     CargoWorkspaceMembers c <> "" /\
     (In k (map TrimSpace (Split (CargoWorkspaceMembers c) ",")) \/
      (Contains (CargoWorkspaceMembers c) "," = false /\
       k = CargoWorkspaceMembers c))).
Proof.
  split; [|split].
  - split; [|apply makeFilterMap_empty].
    intros He. destruct (String.eqb_spec (CargoWorkspaceMembers c) "") as [|Hne];
      [assumption|].
    pose proof (makeFilterMap_size c Hne) as Hs.
    rewrite He, map_size_empty in Hs. lia.
  - intros k b. unfold makeFilterMap.
    destruct (negb (String.eqb (CargoWorkspaceMembers c) ""));
      [|rewrite lookup_empty; discriminate].
    rewrite fold_insert_lookup. destruct (existsb _ _); [congruence|].
    destruct (negb (Contains (CargoWorkspaceMembers c) ","));
      [|rewrite lookup_empty; discriminate].
    intros H. apply lookup_insert_Some in H as [[_ <-]|[_ H]]; [reflexivity|].
    rewrite lookup_empty in H. discriminate.
  - intros k. unfold makeFilterMap.
    destruct (String.eqb_spec (CargoWorkspaceMembers c) "") as [He|Hne]; cbn [negb].
    { rewrite lookup_empty. split; [intros [x Hx]; discriminate|tauto]. }
    rewrite fold_insert_lookup, <- existsb_In.
    destruct (existsb _ _); [split; eauto|].
    destruct (Contains (CargoWorkspaceMembers c) ","); cbn [negb].
    + rewrite lookup_empty. split; [intros [x Hx]; discriminate|].
      intros [_ [H|[H _]]]; discriminate.
    + destruct (String.eqb_spec k (CargoWorkspaceMembers c)) as [->|Hk].
      * rewrite lookup_insert_eq. split; eauto.
      * rewrite lookup_insert_ne by congruence. rewrite lookup_empty.
        split; [intros [x Hx]; discriminate|].
        intros [_ [H|[_ H]]]; [discriminate|congruence].
Qed.

Lemma existsb_all_blank (k : string) (l : list string) :
  l <> [] -> Forall (fun f => TrimSpace f = "") l ->
  existsb (String.eqb k) (map TrimSpace l) = String.eqb k "".
Proof.
  intros Hne H. induction H as [|x l Hx _ IH]; [congruence|].
  cbn [map existsb]. rewrite Hx. destruct l as [|y l].
  - apply orb_false_r.
  - rewrite IH by discriminate. apply orb_diag.
Qed.

(** With a configuration that is not empty and whose entries are all blank,
    the test compares the trimmed name with the empty string. *)
Lemma selected_blank (c : CargoRunner) (x : string) :
  CargoWorkspaceMembers c <> "" ->
  Forall (fun f => TrimSpace f = "") (Split (CargoWorkspaceMembers c) ",") ->
  selected (makeFilterMap c) x = String.eqb (TrimSpace x) "".
Proof.
  intros Hne Hb.
  rewrite selected_spec. apply String.eqb_neq in Hne. rewrite Hne.
  destruct (Contains (CargoWorkspaceMembers c) ",") eqn:Hc.
  - apply existsb_all_blank; [apply Split_nonempty|exact Hb].
  - rewrite Contains_byte in Hc. rewrite (Split_no_sep _ _ Hc) in Hb.
    inversion Hb as [|? ? H0 _]; subst. rewrite H0. reflexivity.
Qed.

(** ** The workspace members and the project targets *)
Section Members.

Variable json_Unmarshal : string -> metadata + error.
Variable URL : Type.
Variable url_Parse : string -> URL + error.

Abbreviation members_loop := (membersLoop URL url_Parse).

Abbreviation goodMember := (parsedMember URL url_Parse).

Lemma membersLoop_app (filterMap : gmap string bool) (pre rest : list string)
  (items : list (string * URL)) (paths : list URL) :
  Forall2 (goodMember filterMap) pre items ->
  members_loop filterMap (pre ++ rest) paths =
  members_loop filterMap rest
    (paths ++ map snd (List.filter (fun item => selected filterMap (fst item)) items)).
Proof.
  intros H. revert paths.
  induction H as [|w item ws its (v & p & Hw & Hp) _ IH]; intros paths.
  - cbn. rewrite app_nil_r. reflexivity.
  - cbn [app membersLoop List.filter]. rewrite Hw. cbn [obind].
    destruct (selected filterMap (fst item)).
    + rewrite (Hp eq_refl), IH. cbn [map]. rewrite <- app_assoc. reflexivity.
    + apply IH.
Qed.

(** X9: when the metadata command succeeds and its output decodes, and
    every workspace member parses and every selected one has a location
    that is a URL, [WorkspaceMembers] returns the locations of the selected
    members, in the order of the metadata, with no error; the location of a
    member that is not selected is never parsed as a URL. *)
Theorem WorkspaceMembers_selected (c : CargoRunner) (srcDir : string)
  (destLayer : Layer) (w : World) (m : metadata) (items : list (string * URL)) :
  let done :=
    Executor c
      {| Command := "cargo";
         Args := ["metadata"; "--format-version=1"; "--no-deps"];
         Dir := srcDir; Stdout := Buffer 0; Stderr := Buffer 1 |} w in
  failure done = None ->
  json_Unmarshal (buffers done 0%nat) = inl m ->
  Forall2 (parsedMember URL url_Parse (makeFilterMap c)) (WorkspaceMembers_of m) items ->
  WorkspaceMembers json_Unmarshal URL url_Parse c srcDir destLayer w =
  (after done,
   Return (map snd (List.filter (fun item => selected (makeFilterMap c) (fst item))
                      items),
           None)).
Proof.
  intros done Hok Hjson Hitems.
  unfold WorkspaceMembers, fetchCargoMetadata. fold done. rewrite Hok, Hjson.
  rewrite <- (app_nil_r (WorkspaceMembers_of m)).
  rewrite (membersLoop_app _ _ [] _ [] Hitems). reflexivity.
Qed.

(** X10: the loop of [WorkspaceMembers] stops at the first member that
    does not parse, or that is selected and whose location is not a URL:
    the locations gathered so far are dropped and the error is returned. *)
Theorem membersLoop_first_error (filterMap : gmap string bool)
  (pre post : list string) (items : list (string * URL)) (w n v p err : string) :
  Forall2 (parsedMember URL url_Parse filterMap) pre items ->
  (ParseWorkspaceMember w = Return (n, v, p, Some err) ->
   membersLoop URL url_Parse filterMap (pre ++ w :: post) [] =
   Return ([], Some ("unable to parse: " +:+ err))) /\
  (ParseWorkspaceMember w = Return (n, v, p, None) ->
   selected filterMap n = true -> url_Parse p = inr err ->
   membersLoop URL url_Parse filterMap (pre ++ w :: post) [] =
   Return ([], Some ("unable to parse path URL " +:+ w +:+ ": " +:+ err))).
Proof.
  intros Hpre. split.
  - intros Hw. rewrite (membersLoop_app _ _ _ _ _ Hpre).
    cbn [membersLoop]. rewrite Hw. reflexivity.
  - intros Hw Hs Hu. rewrite (membersLoop_app _ _ _ _ _ Hpre).
    cbn [membersLoop]. rewrite Hw. cbn [obind]. rewrite Hs, Hu. reflexivity.
Qed.

Lemma index_first_field (s : string) :
  index (SplitN s " " 3) 0 = Return (firstField s).
Proof.
  rewrite SplitN_S_S. unfold firstField.
  destruct (cut s " ") as [[a b]|]; reflexivity.
Qed.

Lemma workspacesLoop_filter (filterMap : gmap string bool)
  (members workspaces : list string) :
  workspacesLoop filterMap members workspaces =
  Return (workspaces ++
          List.filter (fun w => selected filterMap (firstField w)) members).
Proof.
  revert workspaces. induction members as [|w rest IH]; intros acc.
  - cbn. rewrite app_nil_r. reflexivity.
  - cbn [workspacesLoop List.filter]. rewrite index_first_field. cbn [obind].
    destruct (selected filterMap (firstField w)); rewrite IH; [|reflexivity].
    rewrite <- app_assoc. reflexivity.
Qed.

(** X11: [ProjectTargets] never panics ([parts[0]] always exists); when the
    metadata is fetched it returns, with no error, the target names of the
    members whose text up to the first space is selected. *)
Theorem ProjectTargets_spec (c : CargoRunner) (srcDir : string) (w : World) :
  snd (ProjectTargets json_Unmarshal c srcDir w) <> Panic /\
  (forall w' m,
     fetchCargoMetadata json_Unmarshal c srcDir w = (w', (m, None)) ->
     ProjectTargets json_Unmarshal c srcDir w =
     (w', Return (targetNames srcDir (Packages m)
                    (List.filter
                       (fun ws => selected (makeFilterMap c) (firstField ws))
                       (WorkspaceMembers_of m)),
                  None))).
Proof.
  unfold ProjectTargets.
  destruct (fetchCargoMetadata json_Unmarshal c srcDir w) as [w1 [m1 [err|]]].
  - split; [discriminate|]. intros w' m [=].
  - rewrite workspacesLoop_filter. cbn [obind app snd].
    split; [discriminate|]. intros w' m [= <- <-]. reflexivity.
Qed.

End Members.

(** X12: a name is among the targets exactly when it is the name of a
    target of kind [bin], with a source path that starts with the source
    directory, of a package whose id is one of the kept members. *)
Theorem targetNames_In (srcDir : string) (packages : list metadataPackage)
  (workspaces : list string) (x : string) :
  In x (targetNames srcDir packages workspaces) <->
  exists pkg target,
    In pkg packages /\ In (ID pkg) workspaces /\ In target (Targets pkg) /\
    In "bin" (Kind target) /\ HasPrefix (SrcPath target) srcDir = true /\
    Name target = x.
Proof.
  unfold targetNames. rewrite in_flat_map. split.
  - intros (pkg & Hpkg & H). apply in_flat_map in H as (ws & Hws & H).
    destruct (String.eqb_spec (ID pkg) ws) as [He|]; [|destruct H].
    apply in_flat_map in H as (target & Ht & H).
    apply in_flat_map in H as (kind & Hk & H).
    destruct (String.eqb_spec kind "bin") as [->|]; [|destruct H].
    destruct (HasPrefix (SrcPath target) srcDir) eqn:Hp; [|destruct H].
    destruct H as [<-|[]]. exists pkg, target. rewrite He. auto 7.
  - intros (pkg & target & Hpkg & Hws & Ht & Hk & Hp & <-).
    exists pkg. split; [exact Hpkg|]. apply in_flat_map.
    exists (ID pkg). split; [exact Hws|]. rewrite String.eqb_refl.
    apply in_flat_map. exists target. split; [exact Ht|].
    apply in_flat_map. exists "bin". split; [exact Hk|].
    rewrite Hp. left. reflexivity.
Qed.

Lemma WorkspaceMembers_selected_witness :
  WorkspaceMembers sampleUnmarshal string anyURL (sampleRunner "b" "" "" "")
    "/ws" {| Path := "/layers/cargo" |} {| environ_of := ∅; home_of := None |} =
  ({| environ_of := ∅; home_of := None |}, Return (["path+file:///ws"], None)).
Proof.
  refine (WorkspaceMembers_selected sampleUnmarshal string anyURL
            (sampleRunner "b" "" "" "") "/ws" {| Path := "/layers/cargo" |}
            {| environ_of := ∅; home_of := None |} sampleMetadata
            [("a", "path+file:///ws"); ("b", "path+file:///ws")]
            eq_refl eq_refl _).
  constructor; [|constructor; [|constructor]].
  - exists "0.1.0", "path+file:///ws". split; [reflexivity|intros _; reflexivity].
  - exists "0.2.0", "path+file:///ws". split; [reflexivity|intros _; reflexivity].
Defined.

Lemma membersLoop_first_error_witness :
  membersLoop string anyURL ∅ ([] ++ "bad" :: ["path+file:///ws#b@0.2.0"]) [] =
  Return ([], Some ("unable to parse: " +:+
                    "unable to parse workspace member [bad], unexpected format")).
Proof.
  exact (proj1 (membersLoop_first_error string anyURL ∅ []
                  ["path+file:///ws#b@0.2.0"] [] "bad" "" "" ""
                  "unable to parse workspace member [bad], unexpected format"
                  (List.Forall2_nil _))
           eq_refl).
Defined.

Lemma ProjectTargets_spec_witness :
  ProjectTargets sampleUnmarshal (sampleRunner "" "" "" "") "/ws"
    {| environ_of := ∅; home_of := None |} =
  ({| environ_of := ∅; home_of := None |}, Return (["a"], None)).
Proof.
  exact (proj2 (ProjectTargets_spec sampleUnmarshal (sampleRunner "" "" "" "")
                  "/ws" {| environ_of := ∅; home_of := None |})
           _ _ eq_refl).
Defined.

(** ** The allow-list in the two loops *)

(** C4: the loop of [WorkspaceMembers], run with the map that
    [makeFilterMap] builds from the configuration, returns exactly the
    locations of the candidates whose name is allowed, in their order and
    with no error; the loop of [ProjectTargets] keeps exactly the members
    whose text up to the first space is allowed.  A name is allowed when the
    configuration is empty; when the configuration has no comma, when the
    trimmed name is the trimmed configuration; otherwise when the trimmed
    name is the trimmed text of one of the comma-separated entries.  The
    comparison is equality of the byte strings.  With the configuration
    ["a, b"], of the candidates named [a], [b] and [c] the loops keep the
    first two. *)
Theorem membersLoop_allow_list (URL : Type) (url_Parse : string -> URL + error)
  (c : CargoRunner) (members : list string) (items : list (string * URL)) :
  let allowed := fun name : string =>
    if String.eqb (CargoWorkspaceMembers c) "" then true
    else if Contains (CargoWorkspaceMembers c) "," then
      existsb (String.eqb (TrimSpace name))
        (map TrimSpace (Split (CargoWorkspaceMembers c) ","))
    else String.eqb (TrimSpace name) (TrimSpace (CargoWorkspaceMembers c)) in
  Forall2 (fun w item =>
             exists v p, ParseWorkspaceMember w = Return (fst item, v, p, None) /\
                         (allowed (fst item) = true -> url_Parse p = inl (snd item)))
          members items ->
  membersLoop URL url_Parse (makeFilterMap c) members [] =
  Return (map snd (List.filter (fun item => allowed (fst item)) items), None) /\
  (forall workspaces,
     workspacesLoop (makeFilterMap c) workspaces [] =
     Return (List.filter (fun w => allowed (firstField w)) workspaces)) /\
  (CargoWorkspaceMembers c = "a, b" ->
   (forall ua ub uc, items = [("a", ua); ("b", ub); ("c", uc)] ->
      membersLoop URL url_Parse (makeFilterMap c) members [] =
      Return ([ua; ub], None)) /\
   workspacesLoop (makeFilterMap c) ["a"; "b"; "c"] [] = Return ["a"; "b"]).
Proof.
  intros allowed Hitems.
  assert (Hsel : forall x, selected (makeFilterMap c) x = allowed x)
    by (intros x; apply selected_spec).
  assert (Hgood : Forall2 (parsedMember URL url_Parse (makeFilterMap c)) members items).
  { eapply Forall2_impl; [exact Hitems|].
    intros w item (v & p & Hw & Hp). exists v, p.
    split; [exact Hw|]. rewrite Hsel. exact Hp. }
  assert (Hloop : membersLoop URL url_Parse (makeFilterMap c) members [] =
                  Return (map snd (List.filter (fun item => allowed (fst item)) items),
                          None)).
  { rewrite <- (app_nil_r members).
    rewrite (membersLoop_app URL url_Parse _ _ [] _ [] Hgood).
    cbn [membersLoop app].
    rewrite (List.filter_ext _ _ (fun item => Hsel (fst item))). reflexivity. }
  assert (Hws : forall workspaces,
             workspacesLoop (makeFilterMap c) workspaces [] =
             Return (List.filter (fun w => allowed (firstField w)) workspaces)).
  { intros workspaces. rewrite workspacesLoop_filter. cbn [app].
    rewrite (List.filter_ext _ _ (fun w => Hsel (firstField w))). reflexivity. }
  split; [exact Hloop|]. split; [exact Hws|].
  intros Hcfg. split.
  - intros ua ub uc ->. rewrite Hloop. subst allowed. cbn beta.
    rewrite Hcfg. reflexivity.
  - rewrite Hws. subst allowed. cbn beta. rewrite Hcfg. reflexivity.
Qed.

Lemma membersLoop_allow_list_witness :
  membersLoop string anyURL (makeFilterMap (sampleRunner "a, b" "" "" ""))
    ["path+file:///ws#a@0.1.0"; "b 0.2.0 (path+file:///ws/b)";
     "path+file:///ws#c@0.3.0"] [] =
  Return (["path+file:///ws"; "path+file:///ws/b"], None).
Proof.
  refine (proj1 (membersLoop_allow_list string anyURL (sampleRunner "a, b" "" "" "")
                   ["path+file:///ws#a@0.1.0"; "b 0.2.0 (path+file:///ws/b)";
                    "path+file:///ws#c@0.3.0"]
                   [("a", "path+file:///ws"); ("b", "path+file:///ws/b");
                    ("c", "path+file:///ws")] _)).
  constructor; [|constructor; [|constructor; [|constructor]]].
  - exists "0.1.0", "path+file:///ws". split; [reflexivity|intros _; reflexivity].
  - exists "0.2.0", "path+file:///ws/b". split; [reflexivity|intros _; reflexivity].
  - exists "0.3.0", "path+file:///ws". split; [reflexivity|intros _; reflexivity].
Defined.

(** X8: a configuration that is not empty but whose entries are all blank
    (a single space, say) is not the absence of a filter: it keeps only the
    candidates whose name is blank.  So do the two loops: the loop of
    [ProjectTargets] keeps the members whose text up to the first space is
    blank, and the loop of [WorkspaceMembers] the locations of the members
    whose parsed name is blank. *)
Theorem blank_configuration_keeps_blank (c : CargoRunner) (names : list string) :
  CargoWorkspaceMembers c <> "" ->
  Forall (fun f => TrimSpace f = "") (Split (CargoWorkspaceMembers c) ",") ->
  selectMembers c names =
  List.filter (fun x => String.eqb (TrimSpace x) "") names /\
  workspacesLoop (makeFilterMap c) names [] =
  Return (List.filter (fun w => String.eqb (TrimSpace (firstField w)) "") names) /\
  (forall (URL : Type) (url_Parse : string -> URL + error)
          (members : list string) (items : list (string * URL)),
     Forall2 (parsedMember URL url_Parse (makeFilterMap c)) members items ->
     membersLoop URL url_Parse (makeFilterMap c) members [] =
     Return (map snd (List.filter (fun item => String.eqb (TrimSpace (fst item)) "")
                        items),
             None)).
Proof.
  intros Hne Hb.
  pose proof (fun x => selected_blank c x Hne Hb) as Hsel.
  split; [|split].
  - unfold selectMembers. apply List.filter_ext. exact Hsel.
  - rewrite workspacesLoop_filter. cbn [app].
    rewrite (List.filter_ext _ _ (fun w => Hsel (firstField w))). reflexivity.
  - intros URL url_Parse members items Hitems.
    rewrite <- (app_nil_r members).
    rewrite (membersLoop_app URL url_Parse _ _ [] _ [] Hitems).
    cbn [membersLoop app].
    rewrite (List.filter_ext _ _ (fun item => Hsel (fst item))). reflexivity.
Qed.

Lemma blank_configuration_keeps_blank_witness :
  selectMembers (sampleRunner " " "" "" "") ["a"; " "; "b"] = [" "] /\
  workspacesLoop (makeFilterMap (sampleRunner " " "" "" "")) ["a"; " "; "b"] [] =
  Return [" "].
Proof.
  destruct (blank_configuration_keeps_blank (sampleRunner " " "" "" "")
              ["a"; " "; "b"]) as (Hnames & Hloop & _).
  - discriminate.
  - repeat constructor.
  - split; [exact Hnames|exact Hloop].
Defined.

(** ** Bytes that trimming keeps *)
Section TrimKeeps.

Variable c : ascii.

Lemma hasByte_In (s : string) :
  hasByte c s = true <-> In c (list_ascii_of_string s).
Proof.
  induction s as [|a s IH]; cbn [hasByte list_ascii_of_string In].
  - split; [discriminate|intros []].
  - rewrite orb_true_iff, IH, Ascii.eqb_eq. reflexivity.
Qed.

Variable ws : list (list ascii).
Hypothesis ws_free : Forall (fun w => ~ In c w) ws.

Lemma stripOne_keeps (l r : list ascii) :
  stripOne ws l = Some r -> (In c l <-> In c r).
Proof.
  intros H. destruct (stripOne_Some _ _ _ H) as (w & Hw & ->).
  rewrite List.Forall_forall in ws_free. specialize (ws_free _ Hw).
  rewrite in_app_iff. tauto.
Qed.

Lemma trimLeftN_keeps n (l : list ascii) :
  In c (trimLeftN ws n l) <-> In c l.
Proof.
  revert l. induction n as [|n IH]; intros l; [reflexivity|]. cbn [trimLeftN].
  destruct (stripOne ws l) as [r|] eqn:E; [|reflexivity].
  rewrite IH. symmetry. apply stripOne_keeps, E.
Qed.

End TrimKeeps.

Lemma trimmed_keeps (c : ascii) (l : list ascii) :
  forallb (fun w => negb (existsb (Ascii.eqb c) w)) whiteSpace = true ->
  (In c (trimmed l) <-> In c l).
Proof.
  intros Hc.
  assert (Hfree : Forall (fun w => ~ In c w) whiteSpace).
  { apply List.Forall_forall. intros w Hw Hin.
    rewrite forallb_forall in Hc. specialize (Hc _ Hw).
    apply negb_true_iff in Hc.
    assert (existsb (Ascii.eqb c) w = true); [|congruence].
    apply existsb_exists. exists c. split; [exact Hin|apply Ascii.eqb_refl]. }
  assert (Hrev : Forall (fun w => ~ In c w) (map (@rev ascii) whiteSpace)).
  { apply List.Forall_forall. intros w Hw.
    apply List.in_map_iff in Hw as (w' & <- & Hw').
    rewrite List.Forall_forall in Hfree. rewrite <- in_rev. auto. }
  unfold trimmed, trimRight, trimLeft.
  rewrite <- in_rev, (trimLeftN_keeps c _ Hrev), <- in_rev.
  apply (trimLeftN_keeps c _ Hfree).
Qed.

(** A byte that belongs to no white-space rune is in a string exactly when
    it is in the trimmed string. *)
Lemma TrimSpace_keeps (c : ascii) (s : string) :
  forallb (fun w => negb (existsb (Ascii.eqb c) w)) whiteSpace = true ->
  hasByte c (TrimSpace s) = hasByte c s.
Proof.
  intros Hc. apply eq_true_iff_eq.
  rewrite !hasByte_In, TrimSpace_bytes. apply trimmed_keeps, Hc.
Qed.

Lemma firstField_whole (s : string) : hasByte " " s = false -> firstField s = s.
Proof. intros H. unfold firstField. rewrite (cut_None _ _ H). reflexivity. Qed.

(** X13: the two loops do not select alike.  For an identifier [u#n@v]
    without a space and an allow-list that is the package name [n], the loop
    of [WorkspaceMembers] keeps the member, comparing the parsed name, and
    the loop of [ProjectTargets] drops it, comparing the identifier as a
    whole. *)
Theorem loops_select_differently (URL : Type) (url_Parse : string -> URL + error)
  (c : CargoRunner) (u n v : string) (x : URL) :
  HasPrefix u "path+file://" = true -> hasByte "#" u = false ->
  hasByte "@" n = false ->
  hasByte " " (u +:+ "#" +:+ n +:+ "@" +:+ v) = false ->
  CargoWorkspaceMembers c = n -> n <> "" -> hasByte "," n = false ->
  url_Parse (TrimSpace u) = inl x ->
  membersLoop URL url_Parse (makeFilterMap c) [u +:+ "#" +:+ n +:+ "@" +:+ v] [] =
    Return ([x], None) /\
  workspacesLoop (makeFilterMap c) [u +:+ "#" +:+ n +:+ "@" +:+ v] [] = Return [].
Proof.
  intros Hu Hh Ha Hsp Hc Hne Hcomma Hx.
  assert (Hcfg : String.eqb (CargoWorkspaceMembers c) "" = false)
    by (apply String.eqb_neq; congruence).
  assert (Hcont : Contains (CargoWorkspaceMembers c) "," = false)
    by (rewrite Contains_byte, Hc; exact Hcomma).
  split.
  - cbn [membersLoop].
    rewrite ParseWorkspaceMember_at; [|apply HasPrefix_app, Hu|exact Hh|exact Ha].
    cbn [obind]. rewrite selected_spec, Hcfg, Hcont, Hc, TrimSpace_idem.
    rewrite String.eqb_refl, Hx. reflexivity.
  - rewrite workspacesLoop_filter. cbn [List.filter app].
    rewrite (firstField_whole _ Hsp), selected_spec, Hcfg, Hcont, Hc.
    replace (String.eqb (TrimSpace (u +:+ "#" +:+ n +:+ "@" +:+ v)) (TrimSpace n))
      with false; [reflexivity|].
    symmetry. apply String.eqb_neq. intros He.
    assert (H1 : hasByte "@" (TrimSpace (u +:+ "#" +:+ n +:+ "@" +:+ v)) = true).
    { rewrite TrimSpace_keeps by reflexivity.
      change ("#" +:+ n +:+ "@" +:+ v) with (String "#" (n +:+ String "@" v)).
      rewrite hasByte_app. cbn [hasByte]. rewrite hasByte_app. cbn [hasByte].
      rewrite Ascii.eqb_refl. rewrite !orb_true_r. reflexivity. }
    rewrite He, TrimSpace_keeps, Ha in H1 by reflexivity. discriminate.
Qed.

Lemma loops_select_differently_witness :
  membersLoop string anyURL (makeFilterMap (sampleRunner "b" "" "" ""))
    ["path+file:///ws" +:+ "#" +:+ "b" +:+ "@" +:+ "0.2.0"] [] =
    Return (["path+file:///ws"], None) /\
  workspacesLoop (makeFilterMap (sampleRunner "b" "" "" ""))
    ["path+file:///ws" +:+ "#" +:+ "b" +:+ "@" +:+ "0.2.0"] [] = Return [].
Proof.
  refine (loops_select_differently string anyURL (sampleRunner "b" "" "" "")
            "path+file:///ws" "b" "0.2.0" "path+file:///ws"
            eq_refl eq_refl eq_refl eq_refl eq_refl _ eq_refl eq_refl).
  discriminate.
Defined.

(** ** The argument synthesiser on every input *)
Section SynthesiserMore.

Variable shellwords_Parse : string -> list string + error.
Variable IsTinyStack IsStaticStack : string -> bool.
Variable GOARCH : string.

Lemma filterLoop_acc (argwords : list string) skipNext (filteredArgs : list string) :
  filterLoop argwords skipNext filteredArgs =
  filteredArgs ++ filterLoop argwords skipNext [].
Proof.
  revert skipNext filteredArgs.
  induction argwords as [|arg rest IH]; intros skipNext acc.
  - cbn. rewrite app_nil_r. reflexivity.
  - cbn [filterLoop]. destruct skipNext; [apply IH|].
    destruct (_ || _); [apply IH|]. destruct (_ || _); [apply IH|].
    rewrite (IH false (acc ++ [arg])), (IH false ([] ++ [arg])).
    rewrite <- app_assoc. reflexivity.
Qed.

Lemma filterLoop_sublist (argwords : list string) skipNext :
  sublist (filterLoop argwords skipNext []) argwords.
Proof.
  revert skipNext. induction argwords as [|arg rest IH]; intros skipNext.
  - constructor.
  - cbn [filterLoop]. destruct skipNext; [apply sublist_cons, IH|].
    destruct (_ || _); [apply sublist_cons, IH|].
    destruct (_ || _); [apply sublist_cons, IH|].
    rewrite filterLoop_acc. cbn [app]. apply sublist_skip, IH.
Qed.

Lemma filterLoop_neutral_id (argwords : list string) :
  Forall neutral argwords -> filterLoop argwords false [] = argwords.
Proof.
  induction 1 as [|arg rest [Hr Hc] _ IH]; [reflexivity|].
  cbn [filterLoop]. unfold setsRoot, setsColor in Hr, Hc.
  apply orb_false_iff in Hr as [Hr1 Hr2]. apply orb_false_iff in Hc as [Hc1 Hc2].
  rewrite Hr1, Hc1, Hr2, Hc2. cbn [orb].
  rewrite filterLoop_acc, IH. reflexivity.
Qed.

(** X14: when the argument string tokenizes, [FilterInstallArgs] returns,
    with no error, a subsequence of the tokens, in their order, in which no
    token sets the root or the colour; filtering that result again changes
    nothing, and tokens that never set the root or the colour all pass. *)
Theorem FilterInstallArgs_spec (args : string) (argwords : list string) :
  shellwords_Parse args = inl argwords ->
  exists filtered,
    FilterInstallArgs shellwords_Parse args = (filtered, None) /\
    Forall neutral filtered /\ sublist filtered argwords /\
    filterLoop filtered false [] = filtered /\
    (Forall neutral argwords -> filtered = argwords).
Proof.
  intros Hp. exists (filterLoop argwords false []).
  unfold FilterInstallArgs. rewrite Hp.
  assert (Hn : Forall neutral (filterLoop argwords false []))
    by (apply filterLoop_neutral; constructor).
  split; [reflexivity|]. split; [exact Hn|].
  split; [apply filterLoop_sublist|].
  split; [apply filterLoop_neutral_id, Hn|apply filterLoop_neutral_id].
Qed.

Lemma setsPath_default (p : string) : setsPath ("--path=" +:+ p) = true.
Proof. unfold setsPath, HasPrefix. rewrite prefix_app. apply orb_true_r. Qed.

Lemma AddDefaultPath_eq (args : list string) (p : string) :
  AddDefaultPath args p =
  if existsb setsPath args then args else args ++ ["--path=" +:+ p].
Proof. reflexivity. Qed.

(** X15: after [AddDefaultPath] some token sets the path; the given
    arguments come first and at most the one default token is added; and a
    second application, with any default, changes nothing. *)
Theorem AddDefaultPath_idempotent (args : list string) (p q : string) :
  existsb setsPath (AddDefaultPath args p) = true /\
  (AddDefaultPath args p = args \/
   AddDefaultPath args p = args ++ ["--path=" +:+ p]) /\
  AddDefaultPath (AddDefaultPath args p) q = AddDefaultPath args p.
Proof.
  assert (H : existsb setsPath (AddDefaultPath args p) = true).
  { rewrite AddDefaultPath_eq. destruct (existsb setsPath args) eqn:E; [exact E|].
    rewrite existsb_app. cbn [existsb]. rewrite setsPath_default.
    apply orb_true_r. }
  split; [exact H|]. split.
  - rewrite AddDefaultPath_eq. destruct (existsb setsPath args); auto.
  - rewrite (AddDefaultPath_eq (AddDefaultPath args p) q), H. reflexivity.
Qed.

(** X16: on a stack that is neither tiny nor static, [BuildArgs] leaves the
    environment alone and returns [install], the filtered tokens of the
    operator, [--color=never], [--root=<destination>], and [--path=<default>]
    unless a filtered token of the operator sets the path. *)
Theorem BuildArgs_plain_stack (c : CargoRunner) (destLayer : Layer)
  (defaultMemberPath : string) (env : environ) (argwords : list string) :
  shellwords_Parse (CargoInstallArgs c) = inl argwords ->
  IsTinyStack (Stack c) = false -> IsStaticStack (Stack c) = false ->
  BuildArgs shellwords_Parse IsTinyStack IsStaticStack GOARCH
    c destLayer defaultMemberPath env =
  (env,
   (["install"] ++ filterLoop argwords false [] ++
    ["--color=never"; "--root=" +:+ Path destLayer] ++
    (if existsb setsPath (filterLoop argwords false []) then []
     else ["--path=" +:+ defaultMemberPath]),
    None)).
Proof.
  intros Hp Ht Hs. unfold BuildArgs, FilterInstallArgs. rewrite Hp.
  unfold AddDefaultTargetForTinyOrStatic. rewrite Ht, Hs. cbn [negb andb].
  rewrite AddDefaultPath_eq, !existsb_app. cbn [existsb orb].
  change (setsPath "install") with false.
  change (setsPath "--color=never") with false.
  change (setsPath ("--root=" +:+ Path destLayer)) with false.
  cbn [orb]. rewrite orb_false_r.
  destruct (existsb setsPath (filterLoop argwords false [])).
  - rewrite app_nil_r, <- app_assoc. reflexivity.
  - rewrite <- !app_assoc. reflexivity.
Qed.

Abbreviation add_target :=
  (AddDefaultTargetForTinyOrStatic IsTinyStack IsStaticStack GOARCH).

Lemma setsTarget_default (t : string) : setsTarget ("--target=" +:+ t) = true.
Proof. unfold setsTarget, HasPrefix. rewrite prefix_app. apply orb_true_r. Qed.

Lemma AddDefaultTarget_has_target (args : list string) (stack staticType : string)
  (env : environ) :
  existsb setsTarget args = true ->
  add_target args stack staticType env = (env, (args, None)).
Proof.
  intros H. unfold AddDefaultTargetForTinyOrStatic.
  destruct (negb (IsTinyStack stack) && negb (IsStaticStack stack)); [reflexivity|].
  change (existsb _ args) with (existsb setsTarget args). rewrite H. reflexivity.
Qed.

(** X17: [AddDefaultTargetForTinyOrStatic] applied to the arguments and the
    environment that it returned gives them back: it never adds a second
    target. *)
Theorem AddDefaultTarget_again (args : list string) (stack staticType : string)
  (env : environ) :
  AddDefaultTargetForTinyOrStatic IsTinyStack IsStaticStack GOARCH
    (fst (snd (AddDefaultTargetForTinyOrStatic IsTinyStack IsStaticStack GOARCH
                 args stack staticType env)))
    stack staticType
    (fst (AddDefaultTargetForTinyOrStatic IsTinyStack IsStaticStack GOARCH
            args stack staticType env)) =
  AddDefaultTargetForTinyOrStatic IsTinyStack IsStaticStack GOARCH
    args stack staticType env.
Proof.
  assert (Happ : forall t e, add_target (args ++ ["--target=" +:+ t]) stack
                               staticType e =
                             (e, (args ++ ["--target=" +:+ t], None))).
  { intros t e. apply AddDefaultTarget_has_target.
    rewrite existsb_app. cbn [existsb]. rewrite setsTarget_default.
    apply orb_true_r. }
  unfold AddDefaultTargetForTinyOrStatic at 2 3 4.
  destruct (negb (IsTinyStack stack) && negb (IsStaticStack stack)) eqn:H1.
  { cbn [fst snd]. unfold AddDefaultTargetForTinyOrStatic. rewrite H1. reflexivity. }
  destruct (existsb _ args) eqn:H2.
  { cbn [fst snd]. unfold AddDefaultTargetForTinyOrStatic. rewrite H1, H2.
    reflexivity. }
  destruct (Contains (Getenv "RUSTFLAGS" env) "target-feature=+crt-static") eqn:H3.
  { cbn [fst snd]. unfold AddDefaultTargetForTinyOrStatic. rewrite H1, H2, H3.
    reflexivity. }
  destruct (String.eqb staticType StaticTypeGNULIBC) eqn:H4;
    [|cbn [fst snd]; apply Happ].
  destruct (Setenv "RUSTFLAGS" _ env) as [env'|err] eqn:H5;
    [cbn [fst snd]; apply Happ|].
  cbn [fst snd]. unfold AddDefaultTargetForTinyOrStatic.
  rewrite H1, H3, H4. cbn [existsb]. rewrite H5. reflexivity.
Qed.

Lemma Contains_app_r (a b x : string) :
  Contains b x = true -> Contains (a +:+ b) x = true.
Proof.
  intros H. induction a as [|ch a IH]; [exact H|].
  rewrite str_app_cons. cbn [Contains]. rewrite IH. apply orb_true_r.
Qed.

(** X18: the GNU variant latches.  Once a call for the static type
    ["gnulibc"] has appended its target, and so has put the crt-static
    feature into [RUSTFLAGS], every later call in that environment, for any
    arguments, stack and static type, returns its arguments unchanged: no
    target is appended again. *)
Theorem AddDefaultTarget_gnu_latches (args : list string) (stack : string)
  (env : environ) :
  negb (IsTinyStack stack) && negb (IsStaticStack stack) = false ->
  existsb setsTarget args = false ->
  Contains (Getenv "RUSTFLAGS" env) "target-feature=+crt-static" = false ->
  hasByte NUL (Getenv "RUSTFLAGS" env) = false ->
  let env' :=
    fst (AddDefaultTargetForTinyOrStatic IsTinyStack IsStaticStack GOARCH
           args stack "gnulibc" env) in
  snd (AddDefaultTargetForTinyOrStatic IsTinyStack IsStaticStack GOARCH
         args stack "gnulibc" env) =
    (args ++ ["--target=" +:+ archFromSystem GOARCH env +:+ "-unknown-linux-gnu"],
     None) /\
  forall args2 stack2 staticType2,
    AddDefaultTargetForTinyOrStatic IsTinyStack IsStaticStack GOARCH
      args2 stack2 staticType2 env' =
    (env', (args2, None)).
Proof.
  intros H1 H2 H3 Hnul env'.
  assert (Hrun : exists flags,
            add_target args stack "gnulibc" env =
            (<["RUSTFLAGS" := flags]> env,
             (args ++ ["--target=" +:+ archFromSystem GOARCH env
                       +:+ "-unknown-linux-gnu"], None)) /\
            Contains flags "target-feature=+crt-static" = true).
  { unfold AddDefaultTargetForTinyOrStatic. rewrite H1.
    change (existsb _ args) with (existsb setsTarget args). rewrite H2, H3.
    change (String.eqb "gnulibc" StaticTypeGNULIBC) with true. cbn iota.
    destruct (Getenv "RUSTFLAGS" env) as [|a r] eqn:Hr.
    - cbn [String.length Nat.ltb Nat.leb app Join String.concat].
      rewrite Setenv_RUSTFLAGS by reflexivity. eexists. split; reflexivity.
    - change (0 <? String.length (String a r))%nat with true. cbn iota.
      change (Join (([] ++ [String a r]) ++ ["-C target-feature=+crt-static"]) " ")
        with (String a r +:+ " " +:+ "-C target-feature=+crt-static").
      rewrite Setenv_RUSTFLAGS by (rewrite hasByte_app, Hnul; reflexivity).
      eexists. split; [reflexivity|]. apply Contains_app_r. reflexivity. }
  destruct Hrun as (flags & Hrun & Hflags). subst env'. rewrite Hrun.
  cbn [fst snd]. split; [reflexivity|].
  intros args2 stack2 staticType2. unfold AddDefaultTargetForTinyOrStatic.
  destruct (negb (IsTinyStack stack2) && negb (IsStaticStack stack2));
    [reflexivity|].
  destruct (existsb _ args2); [reflexivity|].
  assert (Hget : Getenv "RUSTFLAGS" (<["RUSTFLAGS" := flags]> env) = flags)
    by (unfold Getenv; rewrite lookup_insert_eq; reflexivity).
  rewrite !Hget, Hflags. reflexivity.
Qed.

(** X19: the architecture in the target is never Go's [amd64] or [arm64],
    and when [BP_ARCH] is set, even to the empty string, the architecture
    of the runtime plays no part. *)
Theorem archFromSystem_names (env : environ) :
  archFromSystem GOARCH env <> "amd64" /\
  archFromSystem GOARCH env <> "arm64" /\
  (forall v other, env !! "BP_ARCH" = Some v ->
     archFromSystem GOARCH env = archFromSystem other env).
Proof.
  unfold archFromSystem, LookupEnv.
  split; [|split].
  - destruct (env !! "BP_ARCH") as [v|].
    + destruct (String.eqb_spec v "amd64"); [discriminate|].
      destruct (String.eqb_spec v "arm64"); [discriminate|assumption].
    + destruct (String.eqb_spec GOARCH "amd64"); [discriminate|].
      destruct (String.eqb_spec GOARCH "arm64"); [discriminate|assumption].
  - destruct (env !! "BP_ARCH") as [v|].
    + destruct (String.eqb_spec v "amd64"); [discriminate|].
      destruct (String.eqb_spec v "arm64"); [discriminate|assumption].
    + destruct (String.eqb_spec GOARCH "amd64"); [discriminate|].
      destruct (String.eqb_spec GOARCH "arm64"); [discriminate|assumption].
  - intros v other ->. reflexivity.
Qed.

End SynthesiserMore.

Lemma FilterInstallArgs_spec_witness :
  exists filtered,
    FilterInstallArgs plainWords "--root /x --release" = (filtered, None) /\
    Forall neutral filtered /\
    sublist filtered ["--root"; "/x"; "--release"] /\
    filterLoop filtered false [] = filtered /\
    (Forall neutral ["--root"; "/x"; "--release"] ->
     filtered = ["--root"; "/x"; "--release"]).
Proof.
  exact (FilterInstallArgs_spec plainWords "--root /x --release"
           ["--root"; "/x"; "--release"] eq_refl).
Defined.

Lemma BuildArgs_plain_stack_witness :
  BuildArgs plainWords libpakIsTinyStack libpakIsStaticStack "amd64"
    (sampleRunner "" "--path=svc --root=/old" "io.buildpacks.stacks.jammy" "")
    {| Path := "/dest" |} "." ∅ =
  (∅, (["install"; "--path=svc"; "--color=never"; "--root=/dest"], None)).
Proof.
  exact (BuildArgs_plain_stack plainWords libpakIsTinyStack libpakIsStaticStack
           "amd64"
           (sampleRunner "" "--path=svc --root=/old" "io.buildpacks.stacks.jammy" "")
           {| Path := "/dest" |} "." ∅ ["--path=svc"; "--root=/old"]
           eq_refl eq_refl eq_refl).
Defined.

Lemma AddDefaultTarget_gnu_latches_witness :
  snd (AddDefaultTargetForTinyOrStatic libpakIsTinyStack libpakIsStaticStack
         "arm64" ["install"] "io.buildpacks.stacks.jammy.static" "gnulibc" ∅) =
    (["install"; "--target=aarch64-unknown-linux-gnu"], None) /\
  forall args2 stack2 staticType2,
    AddDefaultTargetForTinyOrStatic libpakIsTinyStack libpakIsStaticStack "arm64"
      args2 stack2 staticType2
      (fst (AddDefaultTargetForTinyOrStatic libpakIsTinyStack libpakIsStaticStack
              "arm64" ["install"] "io.buildpacks.stacks.jammy.static" "gnulibc" ∅)) =
    (fst (AddDefaultTargetForTinyOrStatic libpakIsTinyStack libpakIsStaticStack
            "arm64" ["install"] "io.buildpacks.stacks.jammy.static" "gnulibc" ∅),
     (args2, None)).
Proof.
  exact (AddDefaultTarget_gnu_latches libpakIsTinyStack libpakIsStaticStack
           "arm64" ["install"] "io.buildpacks.stacks.jammy.static" ∅
           eq_refl eq_refl eq_refl eq_refl).
Defined.

(** ** What the pruner keeps and what it leaves *)
Section PrunerMore.

Variable ReadDir_fails RemoveAll_fails : list string -> option error.

Abbreviation prune' := (pruneLoop RemoveAll_fails).
Abbreviation sub_prune' := (pruneSub ReadDir_fails RemoveAll_fails).
Abbreviation clean := (CleanCargoHomeCache ReadDir_fails RemoveAll_fails).

Lemma lookupChild_In name n (cs : list (string * node)) :
  lookupChild name cs = Some n -> In (name, n) cs.
Proof.
  induction cs as [|e cs IH]; [discriminate|]. rewrite lookupChild_cons.
  destruct (String.eqb_spec (fst e) name) as [<-|].
  - intros [= <-]. left. destruct e; reflexivity.
  - intros H. right. exact (IH H).
Qed.

Lemma lookupChild_filter (p : string -> bool) name (cs : list (string * node)) :
  p name = true ->
  lookupChild name (List.filter (fun e => p (fst e)) cs) = lookupChild name cs.
Proof.
  intros Hp. induction cs as [|e cs IH]; [reflexivity|]. cbn [List.filter].
  destruct (String.eqb_spec (fst e) name) as [He|He].
  - rewrite He, Hp, !lookupChild_cons, He, String.eqb_refl. reflexivity.
  - destruct (p (fst e)); rewrite !lookupChild_cons;
      destruct (String.eqb_spec (fst e) name); try congruence; exact IH.
Qed.

(** A loop keeps, as it is, an entry that it retains, when names are
    unique. *)
Lemma prune_keeps keep path name n (cs : list (string * node)) :
  List.NoDup (map fst cs) ->
  lookupChild name cs = Some n -> keep name (IsDir n) = true ->
  lookupChild name (fst (prune' keep path (listing cs) cs)) = Some n.
Proof.
  intros Hnd Hl Hk. rewrite pruneLoop_char. cbn [fst].
  rewrite (lookupChild_filter
             (fun x => negb (named (removedNames RemoveAll_fails keep path
                                      (listing cs)) x)));
    [exact Hl|].
  apply negb_true_iff.
  destruct (named _ name) eqn:Hn; [|reflexivity].
  apply removed_names in Hn as (f & Hf & Hfe & Hkf).
  unfold listing in Hf. apply List.in_map_iff in Hf as (e' & <- & He').
  cbn [fst snd] in Hfe, Hkf.
  rewrite (same_name_same_entry cs e' (name, n) Hnd He' (lookupChild_In _ _ _ Hl) Hfe)
    in Hkf.
  cbn [fst snd] in Hkf. congruence.
Qed.

Lemma pruneSub_lookup_other sub keep k (cs : list (string * node)) :
  k <> sub ->
  lookupChild k (fst (sub_prune' sub keep cs)) = lookupChild k cs.
Proof.
  intros Hk. rewrite pruneSub_eq. destruct (ReadDir_fails [sub]); [reflexivity|].
  destruct (lookupChild sub cs) as [[|sc]|]; try reflexivity.
  cbn [fst]. apply lookupChild_replace_other, Hk.
Qed.

Lemma pruneSub_lookup_same sub keep sc (cs : list (string * node)) :
  lookupChild sub cs = Some (dir sc) ->
  lookupChild sub (fst (sub_prune' sub keep cs)) = Some (dir sc) \/
  lookupChild sub (fst (sub_prune' sub keep cs)) =
    Some (dir (fst (prune' keep [sub] (listing sc) sc))).
Proof.
  intros Hl. rewrite pruneSub_eq. destruct (ReadDir_fails [sub]); [left; exact Hl|].
  rewrite Hl. cbn [fst]. right. apply (lookupChild_replace_same _ _ _ _ Hl).
Qed.

(** The children of the home directory after a run, from those before:
    through the first loop, then the block of [registry], then the block of
    [git], as far as the run went. *)
Lemma clean_children (cs : list (string * node)) :
  let cs1 := fst (prune' keepHome [] (listing cs) cs) in
  let cs2 := fst (sub_prune' "registry" keepRegistry cs1) in
  let cs3 := fst (sub_prune' "git" keepGit cs2) in
  exists cs', fst (clean (Some (dir cs))) = Some (dir cs') /\
              (cs' = cs \/ cs' = cs1 \/ cs' = cs2 \/ cs' = cs3).
Proof.
  intros cs1 cs2 cs3. unfold CleanCargoHomeCache, ReadDir.
  destruct (ReadDir_fails []); [eauto|]. fold (listing cs).
  subst cs3 cs2 cs1.
  destruct (prune' keepHome [] (listing cs) cs) as [c1 [e|]]; cbn [fst]; [eauto 6|].
  destruct (sub_prune' "registry" keepRegistry c1) as [c2 [e|]]; cbn [fst]; [eauto 6|].
  destruct (sub_prune' "git" keepGit c2) as [c3 e]; cbn [fst]. eauto 7.
Qed.

(** X20: the pruner never removes what it is to retain.  In a home
    directory with unique names, whatever reads and removals fail, the
    directory [bin] is after the run as it was before, and so are
    [registry/index], [registry/cache] and [git/db], names being unique in
    [registry] and [git]. *)
Theorem CleanCargoHomeCache_keeps (cs : list (string * node)) :
  List.NoDup (map fst cs) ->
  let home' :=
    fst (CleanCargoHomeCache ReadDir_fails RemoveAll_fails (Some (dir cs))) in
  (forall b, lookupChild "bin" cs = Some (dir b) ->
     lookupPath ["bin"] home' = Some (dir b)) /\
  (forall rs name x,
     lookupChild "registry" cs = Some (dir rs) -> List.NoDup (map fst rs) ->
     name = "index" \/ name = "cache" -> lookupChild name rs = Some (dir x) ->
     lookupPath ["registry"; name] home' = Some (dir x)) /\
  (forall gs x,
     lookupChild "git" cs = Some (dir gs) -> List.NoDup (map fst gs) ->
     lookupChild "db" gs = Some (dir x) ->
     lookupPath ["git"; "db"] home' = Some (dir x)).
Proof.
  intros Hnd home'. subst home'.
  destruct (clean_children cs) as (cs' & -> & Hcs').
  cbn [lookupPath].
  set (cs1 := fst (prune' keepHome [] (listing cs) cs)) in *.
  set (cs2 := fst (sub_prune' "registry" keepRegistry cs1)) in *.
  set (cs3 := fst (sub_prune' "git" keepGit cs2)) in *.
  split; [|split].
  - intros b Hb.
    assert (H1 : lookupChild "bin" cs1 = Some (dir b))
      by (apply prune_keeps; auto).
    assert (H2 : lookupChild "bin" cs2 = Some (dir b))
      by (unfold cs2; rewrite pruneSub_lookup_other; [exact H1|discriminate]).
    assert (H3 : lookupChild "bin" cs3 = Some (dir b))
      by (unfold cs3; rewrite pruneSub_lookup_other; [exact H2|discriminate]).
    destruct Hcs' as [-> | [-> | [-> | ->]]]; assumption.
  - intros rs name x Hrs Hndr Hname Hx.
    assert (Hkeep : keepRegistry name true = true)
      by (destruct Hname as [-> | ->]; reflexivity).
    assert (H1 : lookupChild "registry" cs1 = Some (dir rs))
      by (apply prune_keeps; auto).
    assert (Hin : forall l, lookupChild "registry" l = Some (dir rs) \/
                            lookupChild "registry" l =
                              Some (dir (fst (prune' keepRegistry ["registry"]
                                                (listing rs) rs))) ->
                  match lookupChild "registry" l with
                  | Some (dir cs0) => lookupChild name cs0
                  | _ => None
                  end = Some (dir x)).
    { intros l [-> | ->]; [exact Hx|]. apply prune_keeps; auto. }
    assert (H2 : lookupChild "registry" cs2 = Some (dir rs) \/
                 lookupChild "registry" cs2 =
                   Some (dir (fst (prune' keepRegistry ["registry"]
                                     (listing rs) rs))))
      by (apply pruneSub_lookup_same, H1).
    assert (H3 : lookupChild "registry" cs3 = lookupChild "registry" cs2)
      by (unfold cs3; apply pruneSub_lookup_other; discriminate).
    destruct Hcs' as [-> | [-> | [-> | ->]]]; apply Hin; auto.
    rewrite H3. exact H2.
  - intros gs x Hgs Hndg Hx.
    assert (H1 : lookupChild "git" cs1 = Some (dir gs))
      by (apply prune_keeps; auto).
    assert (H2 : lookupChild "git" cs2 = Some (dir gs))
      by (unfold cs2; rewrite pruneSub_lookup_other; [exact H1|discriminate]).
    assert (Hin : forall l, lookupChild "git" l = Some (dir gs) \/
                            lookupChild "git" l =
                              Some (dir (fst (prune' keepGit ["git"]
                                                (listing gs) gs))) ->
                  match lookupChild "git" l with
                  | Some (dir cs0) => lookupChild "db" cs0
                  | _ => None
                  end = Some (dir x)).
    { intros l [-> | ->]; [exact Hx|]. apply prune_keeps; auto. }
    destruct Hcs' as [-> | [-> | [-> | ->]]]; apply Hin; auto.
    unfold cs3. apply pruneSub_lookup_same, H2.
Qed.

Lemma ended_well keep path files f :
  loopError RemoveAll_fails keep path files = None ->
  In f files -> keep (fst f) (snd f) = false ->
  named (removedNames RemoveAll_fails keep path files) (fst f) = true.
Proof.
  induction files as [|g rest IH]; [intros _ []|].
  cbn [loopError removedNames]. destruct (keep (fst g) (snd g)) eqn:Hg.
  - intros He [->|Hin] Hk; [congruence|auto].
  - destruct (RemoveAll_fails (path ++ [fst g])); [discriminate|].
    intros He [->|Hin] Hk; cbn [named existsb].
    + rewrite String.eqb_refl. reflexivity.
    + fold (named (removedNames RemoveAll_fails keep path rest) (fst f)).
      rewrite (IH He Hin Hk). apply orb_true_r.
Qed.

(** A loop that ends without error leaves only what it retains. *)
Lemma prune_success_retained keep path (cs cs1 : list (string * node)) :
  prune' keep path (listing cs) cs = (cs1, None) -> retainedOnly keep cs1.
Proof.
  rewrite pruneLoop_char. intros [= <- He]. unfold retainedOnly.
  apply List.Forall_forall. intros e Hin.
  apply List.filter_In in Hin as [Hin Hn]. apply negb_true_iff in Hn.
  destruct (keep (fst e) (IsDir (snd e))) eqn:Hk; [reflexivity|].
  assert (Hr : named (removedNames RemoveAll_fails keep path (listing cs))
                 (fst e) = true).
  { apply (ended_well keep path (listing cs) (fst e, IsDir (snd e)) He);
      [|exact Hk].
    unfold listing. apply (List.in_map (fun e => (fst e, IsDir (snd e)))), Hin. }
  congruence.
Qed.

Lemma retainedOnly_replace keep sub sc sc' (cs : list (string * node)) :
  lookupChild sub cs = Some (dir sc) -> retainedOnly keep cs ->
  retainedOnly keep (replaceChild sub (dir sc') cs).
Proof.
  unfold retainedOnly. induction cs as [|e cs IH]; [constructor|].
  rewrite lookupChild_cons. cbn [replaceChild]. intros Hl Hr.
  inversion Hr as [|? ? He Hcs]; subst.
  destruct (String.eqb (fst e) sub).
  - injection Hl as Hl. constructor; [|exact Hcs]. cbn [fst snd].
    rewrite Hl in He. exact He.
  - constructor; [exact He|]. apply IH; assumption.
Qed.

Lemma pruneSub_success sub keep keepUp (cs cs2 : list (string * node)) :
  sub_prune' sub keep cs = (cs2, None) -> retainedOnly keepUp cs ->
  retainedOnly keepUp cs2 /\
  (forall sc, lookupChild sub cs2 = Some (dir sc) -> retainedOnly keep sc).
Proof.
  rewrite pruneSub_eq. destruct (ReadDir_fails [sub]); [discriminate|].
  destruct (lookupChild sub cs) as [[|sc]|] eqn:Hl; [discriminate| |].
  - intros [= <- He] Hr. split; [apply (retainedOnly_replace _ _ _ _ _ Hl Hr)|].
    intros sc'. rewrite (lookupChild_replace_same _ _ _ _ Hl). intros [= <-].
    apply (prune_success_retained keep [sub] sc).
    destruct (prune' keep [sub] (listing sc) sc) as [a b]. cbn in *. congruence.
  - intros [= <-] Hr. split; [exact Hr|]. intros sc. rewrite Hl. discriminate.
Qed.

(** A run that ends without error leaves a home directory that holds only
    what the three levels retain. *)
Lemma clean_success_pruned (home home' : option node) :
  clean home = (home', None) -> prunedHome home'.
Proof.
  unfold CleanCargoHomeCache, ReadDir.
  destruct (ReadDir_fails []); [discriminate|].
  destruct home as [[|cs]|]; [discriminate| |intros [= <-]; exact I].
  fold (listing cs).
  destruct (prune' keepHome [] (listing cs) cs) as [cs1 [e|]] eqn:H1; [discriminate|].
  apply prune_success_retained in H1.
  destruct (sub_prune' "registry" keepRegistry cs1) as [cs2 [e|]] eqn:H2;
    [discriminate|].
  destruct (pruneSub_success _ _ _ _ _ H2 H1) as [H2a H2b].
  pose proof (pruneSub_lookup_other "git" keepGit "registry" cs2) as Hreg.
  destruct (sub_prune' "git" keepGit cs2) as [cs3 e3] eqn:H3.
  intros [= <- ->]. destruct (pruneSub_success _ _ _ _ _ H3 H2a) as [H3a H3b].
  cbn [prunedHome fst] in *. split; [exact H3a|]. split; [|exact H3b].
  intros rs Hrs. apply H2b. rewrite <- Hreg by discriminate. exact Hrs.
Qed.

(** X21: when [CleanCargoHomeCache] returns no error, the home directory
    holds only directories named [bin], [registry] and [git], [registry]
    only directories named [index] and [cache], and [git] only a directory
    named [db]. *)
Theorem CleanCargoHomeCache_leaves_retained (home home' : option node) :
  CleanCargoHomeCache ReadDir_fails RemoveAll_fails home = (home', None) -> prunedHome home'.
Proof. apply clean_success_pruned. Qed.

End PrunerMore.

Lemma CleanCargoHomeCache_keeps_witness :
  lookupPath ["bin"]
    (fst (CleanCargoHomeCache noFailure noFailure (Some sampleHome))) =
  Some (dir [("cargo-audit", file)]).
Proof.
  refine (proj1 (CleanCargoHomeCache_keeps noFailure noFailure
                   [ (".crates.toml", file);
                     ("bin", dir [("cargo-audit", file)]);
                     ("git", dir [("checkouts", dir []);
                                  ("db", dir [("repo", dir [])])]);
                     ("registry", dir [("cache", dir []); ("index", dir []);
                                       ("src", dir [("crate-1.0", dir [])])]);
                     ("tmp", dir []) ] _) _ eq_refl).
  repeat (constructor; [cbn; intuition discriminate|]). constructor.
Defined.

Lemma CleanCargoHomeCache_leaves_retained_witness :
  prunedHome
    (Some (dir [ ("bin", dir [("cargo-audit", file)]);
                 ("git", dir [("db", dir [("repo", dir [])])]);
                 ("registry", dir [("cache", dir []); ("index", dir [])]) ])).
Proof.
  exact (CleanCargoHomeCache_leaves_retained noFailure noFailure
           (Some sampleHome) _ eq_refl).
Defined.

Lemma pruneLoop_exact_witness :
  pruneLoop noFailure keepRegistry ["registry"]
    (listing [("cache", dir []); ("index", file); ("src", dir [])])
    [("cache", dir []); ("index", file); ("src", dir [])] =
  ([("cache", dir [])], None).
Proof.
  refine (pruneLoop_exact noFailure keepRegistry ["registry"]
            [("cache", dir []); ("index", file); ("src", dir [])]
            (fun _ => eq_refl) _).
  repeat (constructor; [cbn; intuition discriminate|]). constructor.
Defined.

(** ** The orchestrator *)
Section Orchestrator.

Variable shellwords_Parse : string -> list string + error.
Variable IsTinyStack IsStaticStack : string -> bool.
Variable GOARCH : string.
Variable ReadDir_fails RemoveAll_fails : list string -> option error.

Abbreviation install_member :=
  (InstallMember shellwords_Parse IsTinyStack IsStaticStack GOARCH
     ReadDir_fails RemoveAll_fails).

(** X22: when the argument string of the operator does not tokenize,
    [InstallMember] returns the error without running any command and
    without pruning: the tree at [CargoHome] is untouched; the search path
    has been refreshed all the same. *)
Theorem InstallMember_args_error (c : CargoRunner) (memberPath srcDir : string)
  (destLayer : Layer) (w : World) (env1 : environ) (err : error) :
  shellwords_Parse (CargoInstallArgs c) = inr err ->
  refreshPath destLayer (environ_of w) = (env1, None) ->
  InstallMember shellwords_Parse IsTinyStack IsStaticStack GOARCH
    ReadDir_fails RemoveAll_fails c memberPath srcDir destLayer w =
  ({| environ_of := env1; home_of := home_of w |},
   Some ("unable to build args" +:+ nl +:+ "filter failed: " +:+
         "parse args failed: " +:+ err)).
Proof.
  intros Hp Hr. unfold InstallMember, prepareInstall. rewrite Hr.
  unfold BuildArgs, FilterInstallArgs. rewrite Hp. reflexivity.
Qed.

(** X23: the search path grows once.  When the bin directory of the layer
    contains the path of the layer, as it does for a clean path, a second
    refresh of the search path changes nothing. *)
Theorem refreshPath_once (destLayer : Layer) (env env1 : environ) :
  Contains (GoFilepath.Join [Path destLayer; "bin"]) (Path destLayer) = true ->
  refreshPath destLayer env = (env1, None) ->
  refreshPath destLayer env1 = (env1, None).
Proof.
  intros Hbin H. unfold refreshPath in *.
  set (bin := GoFilepath.Join [Path destLayer; "bin"]) in *. clearbody bin.
  destruct (negb (String.eqb (Getenv "PATH" env) "") &&
            negb (Contains (Getenv "PATH" env) (Path destLayer))) eqn:Hc.
  - unfold Setenv in H. destruct (_ || _); [discriminate|].
    apply (f_equal fst) in H. cbn [fst] in H. subst env1.
    assert (Hget : Getenv "PATH"
                     (<["PATH" := AppendToEnvVar "PATH" ":" [bin] env]> env) =
                   AppendToEnvVar "PATH" ":" [bin] env)
      by (unfold Getenv; rewrite lookup_insert_eq; reflexivity).
    rewrite !Hget.
    assert (Hin : Contains (AppendToEnvVar "PATH" ":" [bin] env)
                    (Path destLayer) = true).
    { unfold AppendToEnvVar, LookupEnv. destruct (env !! "PATH") as [old|].
      - change (Join ([old] ++ [bin]) ":") with (old +:+ ":" +:+ bin).
        apply Contains_app_r, Contains_app_r, Hbin.
      - exact Hbin. }
    rewrite Hin, andb_false_r. reflexivity.
  - apply (f_equal fst) in H. cbn [fst] in H. subst env1.
    rewrite Hc. reflexivity.
Qed.

(** X24: when [InstallMember] returns no error, the tree it leaves at
    [CargoHome] holds only what the pruner retains. *)
Theorem InstallMember_leaves_pruned (c : CargoRunner) (memberPath srcDir : string)
  (destLayer : Layer) (w w' : World) :
  InstallMember shellwords_Parse IsTinyStack IsStaticStack GOARCH
    ReadDir_fails RemoveAll_fails c memberPath srcDir destLayer w = (w', None) ->
  prunedHome (home_of w').
Proof.
  unfold InstallMember.
  destruct (prepareInstall _ _ _ _ c memberPath destLayer (environ_of w))
    as [env [args [e|]]]; [discriminate|].
  unfold finishInstall. destruct (failure _); [discriminate|].
  destruct (CleanCargoHomeCache _ _ _) as [home [e|]] eqn:Hclean; [discriminate|].
  intros [= <-]. cbn [home_of].
  apply (clean_success_pruned _ _ _ _ Hclean).
Qed.

End Orchestrator.

Lemma InstallMember_args_error_witness :
  InstallMember noWords libpakIsTinyStack libpakIsStaticStack "amd64"
    noFailure noFailure (sampleRunner "" "'" "" "") "." "/src"
    {| Path := "/layers/cargo" |}
    {| environ_of := {["PATH" := "/usr/bin"]}; home_of := Some sampleHome |} =
  ({| environ_of := <["PATH" := "/usr/bin:/layers/cargo/bin"]>
                      {["PATH" := "/usr/bin"]};
      home_of := Some sampleHome |},
   Some ("unable to build args" +:+ nl +:+ "filter failed: " +:+
         "parse args failed: " +:+ "invalid command line string")).
Proof.
  exact (InstallMember_args_error noWords libpakIsTinyStack libpakIsStaticStack
           "amd64" noFailure noFailure (sampleRunner "" "'" "" "") "." "/src"
           {| Path := "/layers/cargo" |}
           {| environ_of := {["PATH" := "/usr/bin"]}; home_of := Some sampleHome |}
           _ "invalid command line string" eq_refl eq_refl).
Defined.

Lemma refreshPath_once_witness :
  refreshPath {| Path := "/layers/cargo" |}
    (<["PATH" := "/usr/bin:/layers/cargo/bin"]> {["PATH" := "/usr/bin"]}) =
  (<["PATH" := "/usr/bin:/layers/cargo/bin"]> {["PATH" := "/usr/bin"]}, None).
Proof.
  exact (refreshPath_once {| Path := "/layers/cargo" |} {["PATH" := "/usr/bin"]}
           _ eq_refl eq_refl).
Defined.

Lemma InstallMember_leaves_pruned_witness :
  prunedHome
    (Some (dir [ ("bin", dir [("cargo-audit", file)]);
                 ("git", dir [("db", dir [("repo", dir [])])]);
                 ("registry", dir [("cache", dir []); ("index", dir [])]) ])).
Proof.
  exact (InstallMember_leaves_pruned plainWords libpakIsTinyStack
           libpakIsStaticStack "amd64" noFailure noFailure
           (sampleRunner "" "--release" "" "") "." "/src"
           {| Path := "/layers/cargo" |}
           {| environ_of := ∅; home_of := Some sampleHome |}
           {| environ_of := ∅;
              home_of :=
                Some (dir [ ("bin", dir [("cargo-audit", file)]);
                            ("git", dir [("db", dir [("repo", dir [])])]);
                            ("registry", dir [("cache", dir []);
                                              ("index", dir [])]) ]) |}
           eq_refl).
Defined.

(** ** The version that is returned *)

Lemma Count_0_inv (s : string) sep : Count s sep = 0%nat -> hasByte sep s = false.
Proof.
  intros H. destruct (hasByte sep s) eqn:E; [|reflexivity].
  apply Count_pos in E. lia.
Qed.

Lemma cut_None_inv (s : string) sep : cut s sep = None -> hasByte sep s = false.
Proof.
  intros H. destruct (hasByte sep s) eqn:E; [|reflexivity].
  destruct (cut_is_Some _ _ E) as (a & b & Hc). congruence.
Qed.

Lemma SplitN_head (s : string) :
  exists t, SplitN s " " (S (Count s " ")) = firstField s :: t.
Proof.
  unfold firstField. destruct (Count s " ") as [|k] eqn:Hc.
  - rewrite (cut_None _ _ (Count_0_inv _ _ Hc)). exists []. reflexivity.
  - rewrite SplitN_S_S. destruct (cut s " ") as [[a b]|] eqn:E; [eauto|].
    apply cut_None_inv, Count_0 in E. congruence.
Qed.

Lemma index_Split_second (s : string) :
  index (Split s " ") 1 =
  match secondField s with
  | Some v => Return v
  | None => Panic
  end.
Proof.
  unfold Split, secondField. destruct (cut s " ") as [[a b]|] eqn:E.
  - pose proof E as E'. apply cut_Some in E' as [-> Ha].
    rewrite Count_app, (Count_0 _ _ Ha). cbn [Count Nat.add].
    rewrite Ascii.eqb_refl. cbn [Nat.add]. rewrite Nat.add_1_r, SplitN_S_S, E.
    destruct (SplitN_head b) as [t ->]. reflexivity.
  - rewrite (Count_0 _ _ (cut_None_inv _ _ E)). reflexivity.
Qed.

(** X25: [CargoVersion] and [RustVersion] compute the same function of the
    output of their command: when it succeeds, both return the text between
    the first and the second space of the trimmed output (up to its end
    when there is one space only), and panic when there is no space. *)
Theorem versions_second_field (c : CargoRunner) (w : World) :
  let cargo := Executor c {| Command := "cargo"; Args := ["version"]; Dir := "";
                             Stdout := Buffer 0; Stderr := Buffer 0 |} w in
  let rustc := Executor c {| Command := "rustc"; Args := ["--version"]; Dir := "";
                             Stdout := Buffer 0; Stderr := Buffer 0 |} w in
  (failure cargo = None ->
   snd (CargoVersion c w) =
   match secondField (TrimSpace (buffers cargo 0%nat)) with
   | Some v => Return (v, None)
   | None => Panic
   end) /\
  (failure rustc = None ->
   snd (RustVersion c w) =
   match secondField (TrimSpace (buffers rustc 0%nat)) with
   | Some v => Return (v, None)
   | None => Panic
   end).
Proof.
  intros cargo rustc. split; intros Hok.
  - unfold CargoVersion. fold cargo. rewrite Hok. cbn [snd].
    rewrite SplitN_3_second. unfold secondField, firstField.
    destruct (cut _ " ") as [[a b]|]; [|reflexivity].
    destruct (cut b " ") as [[v r]|]; reflexivity.
  - unfold RustVersion. fold rustc. rewrite Hok. cbn [snd].
    rewrite index_Split_second. destruct (secondField _); reflexivity.
Qed.

Lemma versions_second_field_witness :
  snd (CargoVersion
         {| CargoHome := ""; CargoWorkspaceMembers := ""; CargoInstallArgs := "";
            Executor := printingExecutor " rustc 1.77.0 (aedd173a2 2024-03-17) ";
            Stack := ""; StaticType := "" |}
         {| environ_of := ∅; home_of := None |}) = Return ("1.77.0", None) /\
  snd (RustVersion
         {| CargoHome := ""; CargoWorkspaceMembers := ""; CargoInstallArgs := "";
            Executor := printingExecutor " rustc 1.77.0 (aedd173a2 2024-03-17) ";
            Stack := ""; StaticType := "" |}
         {| environ_of := ∅; home_of := None |}) = Return ("1.77.0", None).
Proof.
  destruct (versions_second_field
              {| CargoHome := ""; CargoWorkspaceMembers := ""; CargoInstallArgs := "";
                 Executor := printingExecutor " rustc 1.77.0 (aedd173a2 2024-03-17) ";
                 Stack := ""; StaticType := "" |}
              {| environ_of := ∅; home_of := None |}) as [Hc Hr].
  split; [exact (Hc eq_refl)|exact (Hr eq_refl)].
Defined.
